(** * mysql-redis: the cache-aside query proxy of [src/index.js]

    A shallow embedding of the two query adapters, [MysqlRedis.query]
    (completion callback) and [MysqlRedisAsync.query] (promise), of the key
    derivation they share and of the [hash] function, followed by the
    properties of the specification that concern them.

    The JavaScript built-ins the source calls are modelled as follows.
    - [JSON.stringify] is written out ([JSON_stringify]) on a value type that
      has what the source can hand to it: [undefined], [null], booleans,
      integer numbers, the non-finite numbers, strings, arrays and objects.
    - [JSON.parse], the farmhash fingerprints, string64 and the blake2b512
      digest are parameters: every theorem holds whatever these functions are.
    - The primary store and the cache store are a state [W] with one
      transition function per operation the source calls. *)

From Stdlib Require Import ZArith String Ascii List Bool Lia.
From Stdlib Require Import Decimal DecimalString DecimalZ.
Import ListNotations.

Local Open Scope string_scope.
Local Open Scope Z_scope.

(* ================================================================== *)
(** ** JavaScript values *)

(** The values that reach [JSON.stringify] and come back from [JSON.parse].
    A number is an integer ([JNum]) or one of NaN, Infinity, -Infinity
    ([JNaN]); a string is a sequence of code units below 256; an object is
    the list of its own properties in property order. Fractional numbers,
    BigInt values and cyclic structures are not among them: [JSON.stringify]
    throws on the last two, and what is proved here is about calls whose
    values and primary results it serializes. *)
#[local] Unset Elimination Schemes.
Inductive jsval : Type :=
| JUndefined
| JNull
| JBool (b : bool)
| JNum (z : Z)
| JNaN
| JStr (s : string)
| JArr (elems : list jsval)
| JObj (props : list (string * jsval)).
#[local] Set Elimination Schemes.

(** Induction on a value, with the property at hand for the elements of an
    array and the property values of an object. *)
Section jsval_induction.

Variable P : jsval -> Prop.
Hypothesis Hundefined : P JUndefined.
Hypothesis Hnull : P JNull.
Hypothesis Hbool : forall b, P (JBool b).
Hypothesis Hnum : forall z, P (JNum z).
Hypothesis Hnan : P JNaN.
Hypothesis Hstr : forall s, P (JStr s).
Hypothesis Harr : forall elems, Forall P elems -> P (JArr elems).
Hypothesis Hobj : forall props, Forall (fun p => P (snd p)) props -> P (JObj props).

Fixpoint jsval_ind (v : jsval) : P v :=
  match v with
  | JUndefined => Hundefined
  | JNull => Hnull
  | JBool b => Hbool b
  | JNum z => Hnum z
  | JNaN => Hnan
  | JStr s => Hstr s
  | JArr elems =>
      Harr elems
        ((fix all (l : list jsval) : Forall P l :=
            match l with
            | [] => Forall_nil P
            | x :: r => Forall_cons x (jsval_ind x) (all r)
            end) elems)
  | JObj props =>
      Hobj props
        ((fix all (l : list (string * jsval)) : Forall (fun p => P (snd p)) l :=
            match l with
            | [] => Forall_nil _
            | p :: r => Forall_cons p (jsval_ind (snd p)) (all r)
            end) props)
  end.

End jsval_induction.

(** ToBoolean. *)
Definition truthy (v : jsval) : bool :=
  match v with
  | JUndefined | JNull | JNaN => false
  | JBool b => b
  | JNum z => negb (z =? 0)
  | JStr s => negb (String.eqb s EmptyString)
  | JArr _ | JObj _ => true
  end.

(* ------------------------------------------------------------------ *)
(** *** JSON.stringify *)

Definition dquote : ascii := "034"%char.
Definition backslash : ascii := "092"%char.

Definition hex_digit (n : N) : ascii :=
  if (n <? 10)%N then ascii_of_N (48 + n) else ascii_of_N (87 + n).

(** QuoteJSONString, one code unit. *)
Definition escape_char (c : ascii) : string :=
  if Ascii.eqb c dquote then String backslash (String dquote EmptyString)
  else if Ascii.eqb c backslash then String backslash (String backslash EmptyString)
  else if Ascii.eqb c "008"%char then String backslash "b"
  else if Ascii.eqb c "012"%char then String backslash "f"
  else if Ascii.eqb c "010"%char then String backslash "n"
  else if Ascii.eqb c "013"%char then String backslash "r"
  else if Ascii.eqb c "009"%char then String backslash "t"
  else if (N_of_ascii c <? 32)%N then
    String backslash
      (String "u" (String "0" (String "0"
        (String (hex_digit (N_of_ascii c / 16))
          (String (hex_digit (N_of_ascii c mod 16)) EmptyString)))))
  else String c EmptyString.

Fixpoint escape (s : string) : string :=
  match s with
  | EmptyString => EmptyString
  | String c r => escape_char c ++ escape r
  end.

Definition quote (s : string) : string :=
  String dquote (escape s ++ String dquote EmptyString).

(** Number::toString of an integer. *)
Definition number_to_string (z : Z) : string :=
  NilZero.string_of_int (Z.to_int z).

Fixpoint join_commas (l : list string) : string :=
  match l with
  | [] => EmptyString
  | [x] => x
  | x :: r => x ++ "," ++ join_commas r
  end.

(** SerializeJSONProperty: [None] is [undefined]. In an array an
    [undefined] element is written [null]; in an object a property whose
    value is [undefined] is left out. *)
Fixpoint JSON_stringify (v : jsval) : option string :=
  match v with
  | JUndefined => None
  | JNull => Some "null"
  | JBool true => Some "true"
  | JBool false => Some "false"
  | JNum z => Some (number_to_string z)
  | JNaN => Some "null"
  | JStr s => Some (quote s)
  | JArr elems =>
      let fix items (l : list jsval) : list string :=
        match l with
        | [] => []
        | x :: r =>
            match JSON_stringify x with
            | Some t => t
            | None => "null"
            end :: items r
        end in
      Some ("[" ++ join_commas (items elems) ++ "]")
  | JObj props =>
      let fix members (l : list (string * jsval)) : list string :=
        match l with
        | [] => []
        | (k, x) :: r =>
            match JSON_stringify x with
            | Some t => (quote k ++ ":" ++ t) :: members r
            | None => members r
            end
        end in
      Some ("{" ++ join_commas (members props) ++ "}")
  end.

(** String concatenation [s + x] where [x] is a string or [undefined]. *)
Definition concat_text (s : string) (x : option string) : string :=
  match x with
  | Some t => s ++ t
  | None => s ++ "undefined"
  end.

(** The values that [JSON.stringify] writes without loss: no [undefined], no
    non-finite number, and integers in the range where a number is exactly
    an integer. *)
Fixpoint faithful (v : jsval) : bool :=
  match v with
  | JUndefined | JNaN => false
  | JNull | JBool _ | JStr _ => true
  | JNum z => Z.abs z <? 2 ^ 53
  | JArr elems => forallb faithful elems
  | JObj props => forallb (fun p => faithful (snd p)) props
  end.

(** The text of an array element, and of every element after the first
    followed by what closes the list. *)
Definition item_text (v : jsval) : string :=
  match JSON_stringify v with
  | Some t => t
  | None => "null"
  end.

Definition member_text (p : string * jsval) : list string :=
  match JSON_stringify (snd p) with
  | Some t => [quote (fst p) ++ ":" ++ t]
  | None => []
  end.

Fixpoint tail_text (l : list string) (close : string) : string :=
  match l with
  | [] => close
  | x :: r => "," ++ x ++ tail_text r close
  end.

(** A list of texts, commas between them, then [close]. *)
Definition list_text (l : list string) (close : string) : string :=
  match l with
  | [] => close
  | x :: r => x ++ tail_text r close
  end.

(** The text of a property whose value is written. *)
Definition member_string (p : string * jsval) : string :=
  quote (fst p) ++ ":" ++ item_text (snd p).

(* ================================================================== *)
(** ** Constants of the module *)

Module HashTypes.
Definition farmhash32 : Z := 0.
Definition farmhash64 : Z := 1.
Definition blake2b512 : Z := 2.
Definition full : Z := 3.
End HashTypes.

Module Caching.
Definition CACHE : Z := 0.
Definition SKIP : Z := 1.
Definition REFRESH : Z := 2.
End Caching.

(** [this.cacheOptions]: the four knobs, always set. *)
Record CacheOptions : Type := {
  expire : Z;
  keyPrefix : string;
  hashType : Z;
  caching : Z
}.

Definition defaultCacheOptions : CacheOptions :=
  {| expire := 2629746;
     keyPrefix := "sql.";
     hashType := HashTypes.farmhash32;
     caching := Caching.CACHE |}.

(* ================================================================== *)
(** ** Option objects and positional arguments *)

(** One own property of an options object: one of the five properties the
    source reads, holding an integer ([expire], [hashType], [caching]) or a
    string ([keyPrefix], [hash]). Properties that hold [undefined], [null]
    or another kind of value, and properties of other names, are not
    modelled. *)
Inductive optfield : Type :=
| OExpire (n : Z)
| OKeyPrefix (s : string)
| OHashType (n : Z)
| OCaching (n : Z)
| OHash (s : string).

(** An options object: its own properties in property order (each key at
    most once). *)
Definition options : Type := list optfield.

Fixpoint get_expire (o : options) : option Z :=
  match o with
  | [] => None
  | OExpire n :: _ => Some n
  | _ :: r => get_expire r
  end.

Fixpoint get_keyPrefix (o : options) : option string :=
  match o with
  | [] => None
  | OKeyPrefix s :: _ => Some s
  | _ :: r => get_keyPrefix r
  end.

Fixpoint get_hashType (o : options) : option Z :=
  match o with
  | [] => None
  | OHashType n :: _ => Some n
  | _ :: r => get_hashType r
  end.

Fixpoint get_caching (o : options) : option Z :=
  match o with
  | [] => None
  | OCaching n :: _ => Some n
  | _ :: r => get_caching r
  end.

Fixpoint get_hash (o : options) : option string :=
  match o with
  | [] => None
  | OHash s :: _ => Some s
  | _ :: r => get_hash r
  end.

Definition field_prop (f : optfield) : string * jsval :=
  match f with
  | OExpire n => ("expire", JNum n)
  | OKeyPrefix s => ("keyPrefix", JStr s)
  | OHashType n => ("hashType", JNum n)
  | OCaching n => ("caching", JNum n)
  | OHash s => ("hash", JStr s)
  end.

(** What a caller can put at an argument position of [query]. *)
Inductive arg : Type :=
| AUndefined
| ANull
| AArray (elems : list jsval)
| AObject (o : options)
| AFunction.

Definition isArray (a : arg) : bool :=
  match a with AArray _ => true | _ => false end.

Definition arg_truthy (a : arg) : bool :=
  match a with AUndefined | ANull => false | _ => true end.

Definition is_function (a : arg) : bool :=
  match a with AFunction => true | _ => false end.

(** [JSON.stringify(values)]: [undefined] for an omitted argument and for a
    function. *)
Definition stringify_arg (a : arg) : option string :=
  match a with
  | AUndefined | AFunction => None
  | ANull => JSON_stringify JNull
  | AArray elems => JSON_stringify (JArr elems)
  | AObject o => JSON_stringify (JObj (map field_prop o))
  end.

(** [options && options.p]: [None] is a falsy [options] or a missing
    property. *)
Definition prop_expire (a : arg) : option Z :=
  match a with AObject o => get_expire o | _ => None end.
Definition prop_keyPrefix (a : arg) : option string :=
  match a with AObject o => get_keyPrefix o | _ => None end.
Definition prop_hashType (a : arg) : option Z :=
  match a with AObject o => get_hashType o | _ => None end.
Definition prop_caching (a : arg) : option Z :=
  match a with AObject o => get_caching o | _ => None end.
Definition prop_hash (a : arg) : option string :=
  match a with AObject o => get_hash o | _ => None end.

(** [x || d] on numbers and on strings: [0] and the empty string are falsy. *)
Definition or_num (x : option Z) (d : Z) : Z :=
  match x with
  | Some n => if n =? 0 then d else n
  | None => d
  end.

Definition or_str (x : option string) (d : string) : string :=
  match x with
  | Some EmptyString => d
  | Some s => s
  | None => d
  end.

(** The constructor of both classes. *)
Definition constructor (cacheOptions : arg) : CacheOptions :=
  {| expire := or_num (prop_expire cacheOptions) (expire defaultCacheOptions);
     keyPrefix := or_str (prop_keyPrefix cacheOptions) (keyPrefix defaultCacheOptions);
     hashType := or_num (prop_hashType cacheOptions) (hashType defaultCacheOptions);
     caching := or_num (prop_caching cacheOptions) (caching defaultCacheOptions) |}.

(** Lines 55-56: the handler and the options of a completion-style call,
    found by position. *)
Definition callback_handler (values _options _cb : arg) : arg :=
  if arg_truthy _cb then _cb
  else if arg_truthy _options then _options else values.

Definition callback_options (values _options _cb : arg) : arg :=
  if arg_truthy _cb then _options
  else if negb (isArray values) then values else AObject [].

(** Line 158: the options of a promise-style call. *)
Definition effective_options (values options : arg) : arg :=
  if arg_truthy options then options
  else if negb (isArray values) then values else ANull.

(** ToString of what [redisClient.get] answers: a text, or [null]. *)
Definition redis_text (redisResult : option string) : string :=
  match redisResult with
  | Some t => t
  | None => "null"
  end.

(** [Array.isArray(values) ? values : []] *)
Definition params_of (values : arg) : list jsval :=
  match values with AArray elems => elems | _ => [] end.

(* ================================================================== *)
(** ** The libraries and the two stores *)

(** farmhash, string64 and node's crypto, as [hash] uses them.
    [fingerprint64] is the 64-bit fingerprint that farmhash returns as
    decimal text, and [Number_parseInt] the number that the text of an
    integer parses to. *)
Class HashLib : Type := {
  fingerprint32 : string -> Z;
  fingerprint64 : string -> Z;
  Number_parseInt : Z -> Z;
  toString64 : Z -> string;
  blake2b512_base64 : string -> string
}.

(** [JSON.parse] on text: [None] when it throws a SyntaxError. The text
    [null] parses to [null]. *)
Class JsonLib : Type := {
  JSON_parse : string -> option jsval;
  JSON_parse_null : JSON_parse "null" = Some JNull
}.

Inductive error : Type :=
| Err (message : string)
| SyntaxError (text : string)
| TypeError (message : string).

Inductive mysql_reply : Type :=
| MysqlErr (mysqlErr : error)
| MysqlOk (mysqlResult fields : jsval).

Inductive get_reply : Type :=
| GetErr (redisErr : error)
| GetOk (redisResult : option string).

Inductive set_reply : Type :=
| SetErr (err : error)
| SetOk.

(** The primary store and the cache store: a state and what each call
    answers and leaves behind. *)
Class Stores (W : Type) : Type := {
  mysql_query : W -> string -> list jsval -> mysql_reply * W;
  redis_get : W -> string -> get_reply * W;
  redis_set : W -> string -> option string -> Z -> set_reply * W
}.

(* ================================================================== *)
(** ** hash *)

Definition hash `{HashLib} (sql : string) (hashType : Z) : string :=
  if hashType =? HashTypes.blake2b512 then blake2b512_base64 sql
  else if hashType =? HashTypes.full then sql
  else if hashType =? HashTypes.farmhash64 then
    toString64 (Number_parseInt (fingerprint32 sql))
  else
    toString64 (Number_parseInt (fingerprint64 sql)).

(* ================================================================== *)
(** ** Calls and deliveries, in the order they happen *)

Inductive event : Type :=
| EvHash (payload : string) (hashType : Z)
| EvMysqlQuery (sql : string) (params : list jsval)
| EvRedisGet (key : string)
| EvRedisSet (key : string) (value : option string) (expire : Z)
| EvCallback (err : option error) (data fields : jsval)
| EvResolve (data fields : jsval)
| EvReject (e : error).

(** [[{ cacheHit: key }]] *)
Definition cacheHit (key : string) : jsval :=
  JArr [JObj [("cacheHit", JStr key)]].

(** How a block of statements ends. *)
Inductive completion (A : Type) : Type :=
| Normal (a : A)
| Throw (e : error).
Arguments Normal {A} a.
Arguments Throw {A} e.

Section Orchestrator.

Context {W : Type} `{HashLib} `{JsonLib} `{Stores W}.

(** A computation runs on the state of the stores and the calls made so
    far. *)
Definition M (A : Type) : Type :=
  W * list event -> completion A * (W * list event).

Definition ret {A} (a : A) : M A := fun st => (Normal a, st).

Definition bind {A B} (m : M A) (k : A -> M B) : M B :=
  fun st =>
    match m st with
    | (Normal a, st') => k a st'
    | (Throw e, st') => (Throw e, st')
    end.

Definition throw {A} (e : error) : M A := fun st => (Throw e, st).

Definition try_catch {A} (body : M A) (handler : error -> M A) : M A :=
  fun st =>
    match body st with
    | (Normal a, st') => (Normal a, st')
    | (Throw e, st') => handler e st'
    end.

Definition emit (ev : event) : M unit :=
  fun '(w, tr) => (Normal tt, (w, (tr ++ [ev])%list)).

Notation "x <- m ;; k" := (bind m (fun x => k))
  (at level 61, m at next level, right associativity).
Notation "' pat <- m ;; k" := (bind m (fun x => match x with pat => k end))
  (at level 61, pat pattern, m at next level, right associativity).
Notation "m ;; k" := (bind m (fun _ => k))
  (at level 61, right associativity).

(** *** The calls the source makes *)

Definition hash_call (_s : string) (hashType : Z) : M string :=
  emit (EvHash _s hashType) ;; ret (hash _s hashType).

Definition mysqlConn_query (sql : string) (params : list jsval) : M mysql_reply :=
  fun '(w, tr) =>
    let (r, w') := mysql_query w sql params in
    (Normal r, (w', (tr ++ [EvMysqlQuery sql params])%list)).

Definition redisClient_get (key : string) : M get_reply :=
  fun '(w, tr) =>
    let (r, w') := redis_get w key in
    (Normal r, (w', (tr ++ [EvRedisGet key])%list)).

Definition redisClient_set (key : string) (value : option string) (ex : Z)
  : M set_reply :=
  fun '(w, tr) =>
    let (r, w') := redis_set w key value ex in
    (Normal r, (w', (tr ++ [EvRedisSet key value ex])%list)).

(** [await] on the promise clients: a rejection is thrown. *)
Definition await_mysql (sql : string) (params : list jsval) : M (jsval * jsval) :=
  r <- mysqlConn_query sql params ;;
  match r with
  | MysqlErr e => throw e
  | MysqlOk mysqlResult fields => ret (mysqlResult, fields)
  end.

Definition await_get (key : string) : M (option string) :=
  r <- redisClient_get key ;;
  match r with
  | GetErr e => throw e
  | GetOk redisResult => ret redisResult
  end.

Definition await_set (key : string) (value : option string) (ex : Z) : M unit :=
  r <- redisClient_set key value ex ;;
  match r with
  | SetErr e => throw e
  | SetOk => ret tt
  end.

(** [JSON.parse(redisResult)]: the argument is converted to text first, and
    the text of [null] is ["null"]. *)
Definition parse_redisResult (redisResult : option string) : M jsval :=
  let text := redis_text redisResult in
  match JSON_parse text with
  | Some v => ret v
  | None => throw (SyntaxError text)
  end.

(** [cb(err, data, fields)] *)
Definition call (cb : arg) (err : option error) (data fields : jsval) : M unit :=
  match cb with
  | AFunction => emit (EvCallback err data fields)
  | _ => throw (TypeError "cb is not a function")
  end.

Definition resolve (data fields : jsval) : M unit := emit (EvResolve data fields).
Definition reject (e : error) : M unit := emit (EvReject e).

(** *** The cache key (lines 59-65 and 160-165) *)

Definition payload (sql : string) (values : arg) : string :=
  concat_text sql (stringify_arg values).

Definition resolved_prefix (this : CacheOptions) (options : arg) : string :=
  or_str (prop_keyPrefix options) (keyPrefix this).

Definition resolved_hashType (this : CacheOptions) (options : arg) : Z :=
  or_num (prop_hashType options) (hashType this).

Definition resolved_caching (this : CacheOptions) (options : arg) : Z :=
  or_num (prop_caching options) (caching this).

Definition resolved_expire (this : CacheOptions) (options : arg) : Z :=
  or_num (prop_expire options) (expire this).

(** [(options && options.hash) || hash(_s, hashType)] *)
Definition literal_or_hash (options : arg) (_s : string) (hashType : Z) : M string :=
  match prop_hash options with
  | Some EmptyString => hash_call _s hashType
  | Some h => ret h
  | None => hash_call _s hashType
  end.

Definition derive_key (this : CacheOptions) (sql : string) (values options : arg)
  : M string :=
  let _s := payload sql values in
  let prefix := resolved_prefix this options in
  let hashType := resolved_hashType this options in
  h <- literal_or_hash options _s hashType ;;
  ret (prefix ++ h).

(** The value of [key], without the record of the call. *)
Definition cache_key (this : CacheOptions) (sql : string) (values options : arg)
  : string :=
  resolved_prefix this options ++
  or_str (prop_hash options)
         (hash (payload sql values) (resolved_hashType this options)).

(** *** MysqlRedis.query (lines 54-137) *)

Definition MysqlRedis_query (this : CacheOptions) (sql : string)
           (values _options _cb : arg) : M unit :=
  let cb := callback_handler values _options _cb in
  let options := callback_options values _options _cb in
  key <- derive_key this sql values options ;;
  let caching := resolved_caching this options in
  if caching =? Caching.SKIP then
    r <- mysqlConn_query sql (params_of values) ;;
    match r with
    | MysqlErr mysqlErr => call cb (Some mysqlErr) JNull JUndefined
    | MysqlOk mysqlResult fields => call cb None mysqlResult fields
    end
  else if caching =? Caching.REFRESH then
    r <- mysqlConn_query sql (params_of values) ;;
    match r with
    | MysqlErr mysqlErr => call cb (Some mysqlErr) JNull JUndefined
    | MysqlOk mysqlResult fields =>
        redisClient_set key (JSON_stringify mysqlResult)
                        (resolved_expire this options) ;;
        call cb None mysqlResult fields
    end
  else
    r <- mysqlConn_query sql (params_of values) ;;
    match r with
    | MysqlErr mysqlErr =>
        g <- redisClient_get key ;;
        match g with
        | GetErr redisErr => call cb (Some redisErr) JNull (cacheHit key)
        | GetOk None => call cb None JNull (cacheHit key)
        | GetOk (Some redisResult) =>
            v <- parse_redisResult (Some redisResult) ;;
            call cb None v (cacheHit key)
        end
    | MysqlOk mysqlResult fields =>
        redisClient_set key (JSON_stringify mysqlResult)
                        (resolved_expire this options) ;;
        call cb None mysqlResult fields
    end.

(** *** MysqlRedisAsync.query (lines 154-249) *)

(** Lines 211-221 and 234-244: read the key and settle with what it holds. *)
Definition serve_from_cache (key : string) : M unit :=
  try_catch
    (redisResult <- await_get key ;;
     v <- parse_redisResult redisResult ;;
     resolve v (cacheHit key))
    (fun redisErr => reject redisErr).

Definition MysqlRedisAsync_query (this : CacheOptions) (sql : string)
           (values options0 : arg) : M unit :=
  let options := effective_options values options0 in
  key <- derive_key this sql values options ;;
  let caching := resolved_caching this options in
  if caching =? Caching.SKIP then
    try_catch
      ('(mysqlResult, fields) <- await_mysql sql (params_of values) ;;
       resolve mysqlResult fields)
      (fun mysqlErr => reject mysqlErr)
  else if caching =? Caching.REFRESH then
    try_catch
      ('(mysqlResult, fields) <- await_mysql sql (params_of values) ;;
       await_set key (JSON_stringify mysqlResult) (resolved_expire this options) ;;
       resolve mysqlResult fields)
      (fun mysqlErr => reject mysqlErr)
  else
    try_catch
      ('(mysqlResult, fields) <- await_mysql sql (params_of values) ;;
       (if negb (truthy mysqlResult && truthy fields)
        then serve_from_cache key
        else ret tt) ;;
       await_set key (JSON_stringify mysqlResult) (resolved_expire this options) ;;
       resolve mysqlResult fields)
      (fun mysqlErr => serve_from_cache key).

(** Running a call from a state of the stores: how it ended, the final
    state and the calls it made. *)
Definition run (m : M unit) (w : W) : completion unit * (W * list event) :=
  m (w, []).

Definition trace_of (m : M unit) (w : W) : list event := snd (snd (run m w)).

End Orchestrator.

Arguments M W : clear implicits.

(* ================================================================== *)
(** ** What the caller observes *)

(** How the promise of [MysqlRedisAsync.query] settles. *)
Inductive settlement : Type :=
| Fulfilled (data fields : jsval)
| Rejected (e : error).

(** A promise settles once: the first [resolve] or [reject] counts. *)
Fixpoint promise_outcome (tr : list event) : option settlement :=
  match tr with
  | [] => None
  | EvResolve data fields :: _ => Some (Fulfilled data fields)
  | EvReject e :: _ => Some (Rejected e)
  | _ :: r => promise_outcome r
  end.

(** The invocations of the completion handler, in order. *)
Fixpoint callback_calls (tr : list event) : list (option error * jsval * jsval) :=
  match tr with
  | [] => []
  | EvCallback err data fields :: r => (err, data, fields) :: callback_calls r
  | _ :: r => callback_calls r
  end.

(** The calls to the cache store, and the invocations of [hash]. *)
Definition is_cache_op (ev : event) : bool :=
  match ev with
  | EvRedisGet _ | EvRedisSet _ _ _ => true
  | _ => false
  end.

Definition is_hash_call (ev : event) : bool :=
  match ev with
  | EvHash _ _ => true
  | _ => false
  end.

Definition cache_ops (tr : list event) : list event := filter is_cache_op tr.
Definition hash_calls (tr : list event) : list event := filter is_hash_call tr.

(** The key a cache operation is issued at. *)
Definition op_key (ev : event) : option string :=
  match ev with
  | EvRedisGet key | EvRedisSet key _ _ => Some key
  | _ => None
  end.

(** What was delivered, whatever the channel: an error with what came along
    as third argument (a rejection carries the error alone), or a payload
    with its metadata. *)
Inductive delivered : Type :=
| Failure (e : error) (annotation : jsval)
| Success (data meta : jsval).

Definition delivered_by_callback (c : option error * jsval * jsval) : delivered :=
  match c with
  | (Some e, _, fields) => Failure e fields
  | (None, data, fields) => Success data fields
  end.

Definition delivered_by_promise (s : settlement) : delivered :=
  match s with
  | Rejected e => Failure e JUndefined
  | Fulfilled data fields => Success data fields
  end.

(** The same error, or the same payload and metadata; what comes along with
    an error is not compared. *)
Definition same_delivery (a b : delivered) : Prop :=
  match a, b with
  | Failure e _, Failure e' _ => e = e'
  | Success data meta, Success data' meta' => data = data' /\ meta = meta'
  | _, _ => False
  end.

(* ================================================================== *)
(** ** Invocations of either adapter *)

Inductive invocation : Type :=
| CompletionStyle (values _options _cb : arg)
| PromiseStyle (values options : arg).

Definition values_of (i : invocation) : arg :=
  match i with
  | CompletionStyle values _ _ => values
  | PromiseStyle values _ => values
  end.

Definition options_of (i : invocation) : arg :=
  match i with
  | CompletionStyle values _options _cb => callback_options values _options _cb
  | PromiseStyle values options => effective_options values options
  end.

(** A completion-style call needs a function where it looks for its
    handler. *)
Definition has_handler (i : invocation) : bool :=
  match i with
  | CompletionStyle values _options _cb =>
      is_function (callback_handler values _options _cb)
  | PromiseStyle _ _ => true
  end.

Definition invoke `{HashLib} `{JsonLib} {W} `{Stores W}
           (this : CacheOptions) (sql : string) (i : invocation) : M W unit :=
  match i with
  | CompletionStyle values _options _cb => MysqlRedis_query this sql values _options _cb
  | PromiseStyle values options => MysqlRedisAsync_query this sql values options
  end.

(** What the caller of [i] receives, read off the record of the call: the
    arguments of the one invocation of the handler, or how the promise
    settled. *)
Definition result_of (i : invocation) (tr : list event) : option delivered :=
  match i with
  | CompletionStyle _ _ _ =>
      match callback_calls tr with
      | [c] => Some (delivered_by_callback c)
      | _ => None
      end
  | PromiseStyle _ _ => option_map delivered_by_promise (promise_outcome tr)
  end.

Definition key_of `{HashLib} (this : CacheOptions) (sql : string) (i : invocation)
  : string :=
  cache_key this sql (values_of i) (options_of i).

Definition mode_of (this : CacheOptions) (i : invocation) : Z :=
  resolved_caching this (options_of i).

(** The completion-style call that goes with the promise-style call
    [query(sql, values, options)]: the handler comes after the last argument
    given. *)
Definition with_callback (values options : arg) : invocation :=
  match options, values with
  | AUndefined, AUndefined => CompletionStyle AFunction AUndefined AUndefined
  | AUndefined, _ => CompletionStyle values AFunction AUndefined
  | _, _ => CompletionStyle values options AFunction
  end.

(** A run in which the two adapters have no occasion to part: outside SKIP
    mode the cache write that follows a successful primary query succeeds,
    and in CACHE mode a successful primary query yields a truthy result with
    truthy field metadata and the text read after a failed one
    deserializes. *)
Definition regular_run `{HashLib} `{JsonLib} {W} `{Stores W}
           (this : CacheOptions) (sql : string) (i : invocation) (w : W) : bool :=
  let mode := mode_of this i in
  if mode =? Caching.SKIP then true
  else
    match mysql_query w sql (params_of (values_of i)) with
    | (MysqlOk mysqlResult fields, w1) =>
        (if mode =? Caching.REFRESH then true
         else truthy mysqlResult && truthy fields)
        && match fst (redis_set w1 (key_of this sql i) (JSON_stringify mysqlResult)
                                (resolved_expire this (options_of i))) with
           | SetOk => true
           | SetErr _ => false
           end
    | (MysqlErr _, w1) =>
        if mode =? Caching.REFRESH then true
        else
          match fst (redis_get w1 (key_of this sql i)) with
          | GetOk (Some text) =>
              match JSON_parse text with Some _ => true | None => false end
          | _ => true
          end
    end.

(* ================================================================== *)
(** ** Reading a JSON text from the left

    Enough of the lexical structure of a JSON text to tell where a value
    ends: whether the reader is inside a string literal, and how many
    brackets and braces are open. *)

Inductive lex_mode : Type := Structural | InString | Escaped.

Definition is_open (c : ascii) : bool :=
  Ascii.eqb c "["%char || Ascii.eqb c "{"%char.

Definition is_close (c : ascii) : bool :=
  Ascii.eqb c "]"%char || Ascii.eqb c "}"%char.

(** One character. Outside a string a backslash cannot occur, and a closing
    bracket needs an open one. *)
Definition lex_step (m : lex_mode) (depth : nat) (c : ascii)
  : option (lex_mode * nat) :=
  match m with
  | Structural =>
      if Ascii.eqb c dquote then Some (InString, depth)
      else if Ascii.eqb c backslash then None
      else if is_open c then Some (Structural, S depth)
      else if is_close c then
        match depth with
        | O => None
        | S d => Some (Structural, d)
        end
      else Some (Structural, depth)
  | InString =>
      if Ascii.eqb c dquote then Some (Structural, depth)
      else if Ascii.eqb c backslash then Some (Escaped, depth)
      else Some (InString, depth)
  | Escaped => Some (InString, depth)
  end.

Fixpoint lex (m : lex_mode) (depth : nat) (s : string) : option (lex_mode * nat) :=
  match s with
  | EmptyString => Some (m, depth)
  | String c r =>
      match lex_step m depth c with
      | Some (m', depth') => lex m' depth' r
      | None => None
      end
  end.

(** A text whose brackets are matched and whose strings are closed. *)
Definition balanced (s : string) : Prop :=
  lex Structural 0 s = Some (Structural, 0%nat).

(** Two readers of one text, one inside a string and one outside. *)
Definition opposite (m1 m2 : lex_mode) : Prop :=
  (m1 = InString /\ m2 = Structural) \/ (m1 = Structural /\ m2 = InString).

(** A text the reader passes over, outside a string, as if it were not
    there. *)
Definition transparent (t : string) : Prop :=
  forall d r, lex Structural d (t ++ r) = lex Structural d r.

(** The characters of a number: digits and the sign. *)
Definition numchar (c : ascii) : bool :=
  Ascii.eqb c "-"%char
  || ((48 <=? N_of_ascii c)%N && (N_of_ascii c <=? 57)%N).

Fixpoint all_numchar (s : string) : bool :=
  match s with
  | EmptyString => true
  | String c r => numchar c && all_numchar r
  end.

(** What may follow a value: nothing, or a character that no number
    contains. *)
Definition delimited (r : string) : bool :=
  match r with
  | EmptyString => true
  | String c _ => negb (numchar c)
  end.

(** The first character of a value's text. *)
Definition value_start (c : ascii) : bool :=
  numchar c || Ascii.eqb c "n"%char || Ascii.eqb c "t"%char || Ascii.eqb c "f"%char
  || Ascii.eqb c dquote || is_open c.

Definition starts_value (s : string) : bool :=
  match s with
  | String c _ => value_start c
  | EmptyString => false
  end.

(** The text [f a1] of [a1] can be told from what follows it. *)
Definition reads_back (A : Type) (f : A -> string) (ok : A -> bool) (a1 : A) : Prop :=
  forall a2 r1 r2,
    ok a2 = true -> delimited r1 = true -> delimited r2 = true ->
    f a1 ++ r1 = f a2 ++ r2 -> a1 = a2 /\ r1 = r2.

(* ================================================================== *)
(** ** A concrete setting to run the model in

    Stand-ins for what the proxy is given: a reader of JSON texts, a hash
    library and a pair of stores whose failures can be switched on. They
    instantiate the parameters of the model at the concrete inputs below. *)

Module Sim.

Definition is_ws (c : ascii) : bool :=
  Ascii.eqb c " "%char || Ascii.eqb c "009"%char
  || Ascii.eqb c "010"%char || Ascii.eqb c "013"%char.

Fixpoint skip_ws (s : string) : string :=
  match s with
  | String c r => if is_ws c then skip_ws r else s
  | EmptyString => s
  end.

Definition digit_of (c : ascii) : option Z :=
  let n := Z.of_N (N_of_ascii c) in
  if (48 <=? n) && (n <=? 57) then Some (n - 48) else None.

Fixpoint read_digits (acc : Z) (s : string) : Z * string :=
  match s with
  | String c r =>
      match digit_of c with
      | Some d => read_digits (10 * acc + d) r
      | None => (acc, s)
      end
  | EmptyString => (acc, s)
  end.

(** An integer literal: no leading zero, no fraction, no exponent. *)
Definition read_number (s : string) : option (Z * string) :=
  match s with
  | String c r =>
      match digit_of c with
      | Some d =>
          let '(n, rest) := if d =? 0 then (0, r) else read_digits d r in
          match rest with
          | String c' _ =>
              if Ascii.eqb c' "."%char || Ascii.eqb c' "e"%char
                 || Ascii.eqb c' "E"%char
                 || match digit_of c' with Some _ => true | None => false end
              then None else Some (n, rest)
          | EmptyString => Some (n, rest)
          end
      | None => None
      end
  | EmptyString => None
  end.

Definition hex_of (c : ascii) : option N :=
  let n := N_of_ascii c in
  if (48 <=? n)%N && (n <=? 57)%N then Some (n - 48)%N
  else if (97 <=? n)%N && (n <=? 102)%N then Some (n - 87)%N
  else if (65 <=? n)%N && (n <=? 70)%N then Some (n - 55)%N
  else None.

Definition unescape (e : ascii) : option ascii :=
  if Ascii.eqb e dquote then Some dquote
  else if Ascii.eqb e backslash then Some backslash
  else if Ascii.eqb e "/"%char then Some "/"%char
  else if Ascii.eqb e "b"%char then Some "008"%char
  else if Ascii.eqb e "f"%char then Some "012"%char
  else if Ascii.eqb e "n"%char then Some "010"%char
  else if Ascii.eqb e "r"%char then Some "013"%char
  else if Ascii.eqb e "t"%char then Some "009"%char
  else None.

(** The characters of a string literal after its opening quote, and what
    follows the closing quote. *)
Fixpoint read_chars (s : string) : option (string * string) :=
  match s with
  | EmptyString => None
  | String c r =>
      if Ascii.eqb c dquote then Some (EmptyString, r)
      else if Ascii.eqb c backslash then
        match r with
        | String "u" (String h1 (String h2 (String h3 (String h4 r')))) =>
            match hex_of h1, hex_of h2, hex_of h3, hex_of h4, read_chars r' with
            | Some 0%N, Some 0%N, Some a, Some b, Some (t, rest) =>
                Some (String (ascii_of_N (16 * a + b)) t, rest)
            | _, _, _, _, _ => None
            end
        | String e r' =>
            match unescape e, read_chars r' with
            | Some c', Some (t, rest) => Some (String c' t, rest)
            | _, _ => None
            end
        | EmptyString => None
        end
      else if (N_of_ascii c <? 32)%N then None
      else
        match read_chars r with
        | Some (t, rest) => Some (String c t, rest)
        | None => None
        end
  end.

Definition read_word (w : string) (v : jsval) (s : string) : option (jsval * string) :=
  if String.prefix w s
  then Some (v, substring (String.length w) (String.length s - String.length w) s)
  else None.

Fixpoint read_value (fuel : nat) (s : string) : option (jsval * string) :=
  match fuel with
  | O => None
  | S fuel' =>
      match skip_ws s with
      | EmptyString => None
      | String c r =>
          if Ascii.eqb c dquote then
            match read_chars r with
            | Some (t, rest) => Some (JStr t, rest)
            | None => None
            end
          else if Ascii.eqb c "["%char then
            match skip_ws r with
            | String "]" rest => Some (JArr [], rest)
            | _ =>
                match read_items fuel' r with
                | Some (vs, rest) => Some (JArr vs, rest)
                | None => None
                end
            end
          else if Ascii.eqb c "{"%char then
            match skip_ws r with
            | String "}" rest => Some (JObj [], rest)
            | _ =>
                match read_members fuel' r with
                | Some (ps, rest) => Some (JObj ps, rest)
                | None => None
                end
            end
          else if Ascii.eqb c "-"%char then
            match read_number r with
            | Some (n, rest) => Some (JNum (- n), rest)
            | None => None
            end
          else if Ascii.eqb c "n"%char then read_word "null" JNull (String c r)
          else if Ascii.eqb c "t"%char then read_word "true" (JBool true) (String c r)
          else if Ascii.eqb c "f"%char then read_word "false" (JBool false) (String c r)
          else
            match read_number (String c r) with
            | Some (n, rest) => Some (JNum n, rest)
            | None => None
            end
      end
  end
with read_items (fuel : nat) (s : string) : option (list jsval * string) :=
  match fuel with
  | O => None
  | S fuel' =>
      match read_value fuel' s with
      | Some (v, r) =>
          match skip_ws r with
          | String "," r' =>
              match read_items fuel' r' with
              | Some (vs, rest) => Some (v :: vs, rest)
              | None => None
              end
          | String "]" rest => Some ([v], rest)
          | _ => None
          end
      | None => None
      end
  end
with read_members (fuel : nat) (s : string)
     : option (list (string * jsval) * string) :=
  match fuel with
  | O => None
  | S fuel' =>
      match skip_ws s with
      | String c r =>
          if Ascii.eqb c dquote then
            match read_chars r with
            | Some (k, r1) =>
                match skip_ws r1 with
                | String ":" r2 =>
                    match read_value fuel' r2 with
                    | Some (v, r3) =>
                        match skip_ws r3 with
                        | String "," r4 =>
                            match read_members fuel' r4 with
                            | Some (ps, rest) => Some ((k, v) :: ps, rest)
                            | None => None
                            end
                        | String "}" rest => Some ([(k, v)], rest)
                        | _ => None
                        end
                    | None => None
                    end
                | _ => None
                end
            | None => None
            end
          else None
      | EmptyString => None
      end
  end.

Definition parse (text : string) : option jsval :=
  match read_value (2 * String.length text + 2) text with
  | Some (v, rest) =>
      match skip_ws rest with
      | EmptyString => Some v
      | _ => None
      end
  | None => None
  end.

#[global] Instance json : JsonLib :=
  {| JSON_parse := parse; JSON_parse_null := eq_refl |}.

(** A polynomial checksum in the place of the farmhash fingerprints, decimal
    digits in the place of string64's alphabet. *)
Fixpoint checksum (modulus acc : Z) (s : string) : Z :=
  match s with
  | EmptyString => acc
  | String c r => checksum modulus ((acc * 131 + Z.of_N (N_of_ascii c)) mod modulus) r
  end.

#[global] Instance hashlib : HashLib := {|
  fingerprint32 := checksum (2 ^ 32) 7;
  fingerprint64 := checksum (2 ^ 64) 7;
  Number_parseInt := fun z => z;
  toString64 := number_to_string;
  blake2b512_base64 := fun s => number_to_string (checksum (2 ^ 512) 7 s)
|}.

(** The two stores: the primary store answers every query with
    [primary]; the cache store is a list of bindings, most recent first,
    whose reads and writes fail when told to. *)
Record world : Type := {
  primary : mysql_reply;
  bindings : list (string * string);
  get_fails : option error;
  set_fails : option error
}.

Fixpoint lookup (key : string) (l : list (string * string)) : option string :=
  match l with
  | [] => None
  | (k, v) :: r => if String.eqb k key then Some v else lookup key r
  end.

Definition store (w : world) (key value : string) : world :=
  {| primary := primary w;
     bindings := (key, value) :: bindings w;
     get_fails := get_fails w;
     set_fails := set_fails w |}.

#[global] Instance stores : Stores world := {|
  mysql_query := fun w _ _ => (primary w, w);
  redis_get := fun w key =>
    match get_fails w with
    | Some e => (GetErr e, w)
    | None => (GetOk (lookup key (bindings w)), w)
    end;
  redis_set := fun w key value _ =>
    match set_fails w with
    | Some e => (SetErr e, w)
    | None => (SetOk, store w key (concat_text EmptyString value))
    end
|}.

End Sim.

(** *** Concrete inputs *)

(** The proxy with the full strategy, with SKIP mode and with REFRESH mode. *)
Definition proxy_full : CacheOptions :=
  constructor (AObject [OHashType HashTypes.full]).
Definition proxy_skip : CacheOptions :=
  constructor (AObject [OHashType HashTypes.full; OCaching Caching.SKIP]).
Definition proxy_refresh : CacheOptions :=
  constructor (AObject [OHashType HashTypes.full; OCaching Caching.REFRESH]).

(** The result of [select 1+2], its field metadata and its JSON text. *)
Definition row : jsval := JArr [JObj [("1+2", JNum 3)]].
Definition row_fields : jsval := JArr [JObj [("name", JStr "1+2")]].
Definition row_text : string := concat_text EmptyString (JSON_stringify row).

(** The result of a statement that returns no rows: no field metadata. *)
Definition update_result : jsval := JObj [("affectedRows", JNum 1)].

Definition healthy (reply : mysql_reply) (bindings : list (string * string))
  : Sim.world :=
  {| Sim.primary := reply; Sim.bindings := bindings;
     Sim.get_fails := None; Sim.set_fails := None |}.

Definition cache_down (reply : mysql_reply) : Sim.world :=
  {| Sim.primary := reply; Sim.bindings := [];
     Sim.get_fails := Some (Err "cache read failed");
     Sim.set_fails := Some (Err "cache write failed") |}.

Definition read_only_cache (reply : mysql_reply) (bindings : list (string * string))
  : Sim.world :=
  {| Sim.primary := reply; Sim.bindings := bindings;
     Sim.get_fails := None; Sim.set_fails := Some (Err "cache write failed") |}.

(** [query("select 1+2", [])] in promise style and in completion style, the
    same with the parameters left out, and with a literal key. *)
Definition select_promise : invocation := PromiseStyle (AArray []) AUndefined.
Definition select_completion : invocation := CompletionStyle (AArray []) AFunction AUndefined.
Definition bare_promise : invocation := PromiseStyle AUndefined AUndefined.
Definition bare_completion : invocation := CompletionStyle AFunction AUndefined AUndefined.
Definition literal_completion : invocation :=
  CompletionStyle (AArray []) (AObject [OHash "three"; OKeyPrefix "app:"]) AFunction.

(* ================================================================== *)
(** ** More to read off the record of a call *)

Definition is_primary_query (ev : event) : bool :=
  match ev with
  | EvMysqlQuery _ _ => true
  | _ => false
  end.

Definition primary_queries (tr : list event) : list event :=
  filter is_primary_query tr.

(** What happens before the primary store is queried. *)
Fixpoint before_primary (tr : list event) : list event :=
  match tr with
  | [] => []
  | EvMysqlQuery _ _ :: _ => []
  | ev :: r => ev :: before_primary r
  end.

(** The expiry a cache write is issued with. *)
Definition op_expire (ev : event) : option Z :=
  match ev with
  | EvRedisSet _ _ ex => Some ex
  | _ => None
  end.

(** An options object whose numbers are integers that a number holds
    exactly. *)
Definition options_faithful (o : options) : bool :=
  forallb (fun f => faithful (snd (field_prop f))) o.

(** The primary store is down and the cache holds, at the key of
    [query("select 1+2", [])], a text that is not JSON. *)
Definition corrupt_entry : Sim.world :=
  healthy (MysqlErr (Err "primary down")) [("sql.select 1+2[]", "{oops")].

(** [query("select 1+2", [])] with no handler, and with a per-call request
    for CACHE mode. *)
Definition no_handler : invocation := CompletionStyle (AArray []) AUndefined AUndefined.
Definition ask_cache : invocation :=
  CompletionStyle (AArray []) (AObject [OCaching Caching.CACHE]) AFunction.

(** A completion-style call and a promise-style call that lines 55-67 and
    158-167 resolve alike: a handler is found, and the params handed to the
    primary store, the cache key, the caching mode and the expiry are the
    same. *)
Definition same_resolution `{HashLib} (this : CacheOptions) (sql : string)
           (ci pi : invocation) : Prop :=
  has_handler ci = true /\
  params_of (values_of ci) = params_of (values_of pi) /\
  key_of this sql ci = key_of this sql pi /\
  mode_of this ci = mode_of this pi /\
  resolved_expire this (options_of ci) = resolved_expire this (options_of pi).

(** An options object that asks for SKIP mode, in the place of the
    parameters. *)
Definition skip_options : arg := AObject [OCaching Caching.SKIP].

(** The primary store is down and the cache holds the rows of [select 1+2]
    at the key of [query("select 1+2", {caching: Caching.SKIP})]. *)
Definition down_with_entry : Sim.world :=
  healthy (MysqlErr (Err "primary down"))
          [("sql.select 1+2" ++ concat_text EmptyString (stringify_arg skip_options),
            row_text)].

(** What the key derivation adds to the record: the call of [hash], unless
    the options carry a literal key. *)
Definition hash_record `{HashLib} (this : CacheOptions) (sql : string)
           (values options : arg) : list event :=
  match prop_hash options with
  | Some EmptyString | None =>
      [EvHash (payload sql values) (resolved_hashType this options)]
  | Some _ => []
  end.

(* ================================================================== *)
(** ** JSON texts *)

Lemma append_nil_r (s : string) : s ++ EmptyString = s.
Proof. induction s; simpl; congruence. Qed.

Lemma append_assoc (a b c : string) : (a ++ b) ++ c = a ++ (b ++ c).
Proof. induction a; simpl; congruence. Qed.

Lemma append_inv_head (s a b : string) : s ++ a = s ++ b -> a = b.
Proof. induction s; simpl; intros E; [exact E | injection E; auto]. Qed.

(** Two ways to cut one text: one of the two first parts starts the other. *)
Lemma append_eq_append (a x b y : string) :
  a ++ x = b ++ y ->
  exists p, (a = b ++ p /\ y = p ++ x) \/ (b = a ++ p /\ x = p ++ y).
Proof.
  revert b. induction a as [|c a IH]; intros b E; simpl in E.
  - exists b. right. auto.
  - destruct b as [|c' b]; simpl in E.
    + exists (String c a). left. auto.
    + injection E as -> E. destruct (IH b E) as [p [[-> ->] | [-> ->]]];
        exists p; [left | right]; auto.
Qed.

Lemma append_inv_last (a b : string) (c c' : ascii) :
  a ++ String c EmptyString = b ++ String c' EmptyString -> a = b /\ c = c'.
Proof.
  revert b. induction a as [|x a IH]; intros [|y b] E; simpl in E.
  - injection E; auto.
  - injection E as _ E. destruct b; discriminate.
  - injection E as _ E. destruct a; discriminate.
  - injection E as -> E. destruct (IH b E) as [-> ->]. auto.
Qed.

(** *** The reader on texts put together *)

Lemma lex_app m d a b :
  lex m d (a ++ b)
  = match lex m d a with
    | Some (m', d') => lex m' d' b
    | None => None
    end.
Proof.
  revert m d. induction a as [|c a IH]; intros m d; simpl; [reflexivity|].
  destruct (lex_step m d c) as [[m' d']|]; [apply IH | reflexivity].
Qed.

(** What is read with fewer brackets open is read the same with more. *)
Lemma lex_step_deeper m d c m' d' k :
  lex_step m d c = Some (m', d') -> lex_step m (d + k) c = Some (m', d' + k)%nat.
Proof.
  unfold lex_step. destruct m.
  - destruct (Ascii.eqb c dquote); [intros E; injection E as <- <-; reflexivity|].
    destruct (Ascii.eqb c backslash); [discriminate|].
    destruct (is_open c); [intros E; injection E as <- <-; reflexivity|].
    destruct (is_close c).
    + destruct d; [discriminate|]. intros E; injection E as <- <-. reflexivity.
    + intros E; injection E as <- <-. reflexivity.
  - destruct (Ascii.eqb c dquote); [intros E; injection E as <- <-; reflexivity|].
    destruct (Ascii.eqb c backslash); intros E; injection E as <- <-; reflexivity.
  - intros E; injection E as <- <-. reflexivity.
Qed.

Lemma lex_deeper s m d m' d' k :
  lex m d s = Some (m', d') -> lex m (d + k) s = Some (m', d' + k)%nat.
Proof.
  revert m d. induction s as [|c s IH]; intros m d; simpl.
  - intros E; injection E as <- <-. reflexivity.
  - destruct (lex_step m d c) as [[m1 d1]|] eqn:E; [|discriminate].
    rewrite (lex_step_deeper _ _ _ _ _ k E). apply IH.
Qed.

Lemma balanced_at s d : balanced s -> lex Structural d s = Some (Structural, d).
Proof. intros B. exact (lex_deeper s Structural 0 Structural 0 d B). Qed.

(** They stay on opposite sides of every quote. *)
Lemma lex_opposite s m1 d1 m2 d2 m1' d1' m2' d2' :
  opposite m1 m2 ->
  lex m1 d1 s = Some (m1', d1') ->
  lex m2 d2 s = Some (m2', d2') ->
  opposite m1' m2'.
Proof.
  revert m1 d1 m2 d2. induction s as [|c s IH]; intros m1 d1 m2 d2 O; simpl.
  - intros E1 E2. injection E1 as <- _. injection E2 as <- _. exact O.
  - destruct (lex_step m1 d1 c) as [[n1 e1]|] eqn:S1; [|discriminate].
    destruct (lex_step m2 d2 c) as [[n2 e2]|] eqn:S2; [|discriminate].
    apply IH.
    destruct O as [[-> ->] | [-> ->]]; unfold lex_step in S1, S2;
      destruct (Ascii.eqb c dquote);
      try (injection S1 as <- _; injection S2 as <- _; unfold opposite; now auto);
      destruct (Ascii.eqb c backslash); try discriminate;
      destruct (is_open c);
      try (injection S1 as <- _; injection S2 as <- _; unfold opposite; now auto);
      destruct (is_close c);
      try (injection S1 as <- _; injection S2 as <- _; unfold opposite; now auto).
    + destruct d2; [discriminate|].
      injection S1 as <- _; injection S2 as <- _; unfold opposite; now auto.
    + destruct d1; [discriminate|].
      injection S1 as <- _; injection S2 as <- _; unfold opposite; now auto.
Qed.

(** A bracketed balanced text does not end with another one. *)
Lemma bracketed_suffix p b1 b2 :
  balanced b1 -> balanced b2 ->
  "[" ++ b1 ++ "]" = p ++ "[" ++ b2 ++ "]" ->
  p = EmptyString.
Proof.
  intros B1 B2 E. destruct p as [|c p]; [reflexivity|]. exfalso.
  simpl in E. injection E as _ E.
  change (String "[" (b2 ++ "]")) with (("[" ++ b2) ++ "]") in E.
  rewrite <- append_assoc in E.
  apply append_inv_last in E. destruct E as [E _].
  unfold balanced in B1. rewrite E, lex_app in B1.
  destruct (lex Structural 0 p) as [[m d]|] eqn:Lp; [|discriminate].
  simpl in B1.
  destruct m; simpl in B1.
  - rewrite (balanced_at b2 (S d) B2) in B1. discriminate.
  - pose proof (lex_opposite b2 InString d Structural 0 _ _ _ _
                  (or_introl (conj eq_refl eq_refl)) B1 B2) as [[? _] | [_ ?]];
      discriminate.
  - pose proof (lex_opposite b2 InString d Structural 0 _ _ _ _
                  (or_introl (conj eq_refl eq_refl)) B1 B2) as [[? _] | [_ ?]];
      discriminate.
Qed.

(** *** What JSON.stringify writes *)

Lemma stringify_arr elems :
  JSON_stringify (JArr elems)
  = Some ("[" ++ join_commas (map item_text elems) ++ "]").
Proof. reflexivity. Qed.

Lemma stringify_obj props :
  JSON_stringify (JObj props)
  = Some ("{" ++ join_commas (flat_map member_text props) ++ "}").
Proof.
  simpl. do 3 f_equal.
  match goal with |- join_commas (?f props) = _ => set (members := f) end.
  assert (E : forall l, members l = flat_map member_text l).
  { induction l as [|[k x] r IH]; [reflexivity|].
    simpl. unfold member_text at 1. simpl. rewrite <- IH.
    destruct (JSON_stringify x); reflexivity. }
  now rewrite E.
Qed.

Lemma join_commas_close l close : join_commas l ++ close = list_text l close.
Proof.
  destruct l as [|x r]; [reflexivity|]. simpl.
  revert x. induction r as [|y r IH]; intros x; [reflexivity|].
  change (join_commas (x :: y :: r)) with (x ++ "," ++ join_commas (y :: r)).
  rewrite append_assoc. simpl. f_equal. f_equal. rewrite IH. reflexivity.
Qed.

(** *** The reader on what JSON.stringify writes *)

Lemma lex_escape_char c d r :
  lex InString d (escape_char c ++ r) = lex InString d r.
Proof. destruct c as [[] [] [] [] [] [] [] []]; reflexivity. Qed.

Lemma lex_escape s d r : lex InString d (escape s ++ r) = lex InString d r.
Proof.
  induction s as [|c s IH]; [reflexivity|].
  simpl. rewrite append_assoc, lex_escape_char. exact IH.
Qed.

Lemma lex_quote s d r : lex Structural d (quote s ++ r) = lex Structural d r.
Proof.
  unfold quote. simpl. rewrite append_assoc, lex_escape. reflexivity.
Qed.

Lemma digits_numchar (u : uint) : all_numchar (NilEmpty.string_of_uint u) = true.
Proof. induction u; simpl; auto. Qed.

Lemma number_numchar z : all_numchar (number_to_string z) = true.
Proof.
  unfold number_to_string.
  assert (U : forall u, all_numchar (NilZero.string_of_uint u) = true).
  { intros u. destruct u; [reflexivity | exact (digits_numchar _) ..]. }
  destruct (Z.to_int z); simpl; auto.
Qed.

Lemma number_head z :
  exists c t, number_to_string z = String c t /\ numchar c = true.
Proof.
  pose proof (number_numchar z) as A.
  assert (N : number_to_string z <> EmptyString).
  { unfold number_to_string. destruct z; simpl.
    - discriminate.
    - pose proof (DecimalPos.Unsigned.to_uint_nonnil p) as NN.
      destruct (Pos.to_uint p); try congruence; discriminate.
    - discriminate. }
  destruct (number_to_string z) as [|c t]; [congruence|].
  simpl in A. apply andb_true_iff in A. exists c, t. tauto.
Qed.

Lemma lex_numchars s d r :
  all_numchar s = true -> lex Structural d (s ++ r) = lex Structural d r.
Proof.
  induction s as [|c s IH]; [reflexivity|]. simpl.
  intros A. apply andb_true_iff in A. destruct A as [C A].
  assert (S : lex_step Structural d c = Some (Structural, d)).
  { clear - C. destruct c as [[] [] [] [] [] [] [] []]; try discriminate; reflexivity. }
  unfold lex_step in S. rewrite S. auto.
Qed.

Lemma lex_tail_text l close d :
  Forall transparent l ->
  lex Structural d (tail_text l close) = lex Structural d close.
Proof.
  induction 1 as [|x l Hx Hl IH]; [reflexivity|].
  simpl. rewrite Hx. exact IH.
Qed.

Lemma lex_list_text l close d :
  Forall transparent l ->
  lex Structural d (list_text l close) = lex Structural d close.
Proof.
  destruct 1 as [|x l Hx Hl]; [reflexivity|].
  simpl. rewrite Hx. now apply lex_tail_text.
Qed.

Lemma transparent_member k t :
  transparent t -> transparent (quote k ++ ":" ++ t).
Proof.
  intros Ht d r. rewrite append_assoc, lex_quote. simpl. apply Ht.
Qed.

Lemma transparent_bracketed (o c : ascii) l :
  is_open o = true -> is_close c = true ->
  Forall transparent l ->
  transparent (String o (join_commas l ++ String c EmptyString)).
Proof.
  intros Ho Hc Hl d r. simpl.
  assert (So : lex_step Structural d o = Some (Structural, S d)).
  { clear - Ho. destruct o as [[] [] [] [] [] [] [] []]; try discriminate; reflexivity. }
  unfold lex_step in So. rewrite So.
  rewrite append_assoc, join_commas_close, lex_list_text by assumption.
  simpl.
  assert (Sc : lex_step Structural (S d) c = Some (Structural, d)).
  { clear - Hc. destruct c as [[] [] [] [] [] [] [] []]; try discriminate; reflexivity. }
  unfold lex_step in Sc. rewrite Sc. reflexivity.
Qed.

Lemma transparent_item v : transparent (item_text v).
Proof.
  induction v as [ | |b|z| |s|elems IH|props IH] using jsval_ind;
    try (intros d r; reflexivity).
  - intros d r. destruct b; reflexivity.
  - intros d r. apply lex_numchars, number_numchar.
  - intros d r. apply lex_quote.
  - unfold item_text. rewrite stringify_arr.
    apply transparent_bracketed; try reflexivity.
    induction IH; simpl; constructor; auto.
  - unfold item_text. rewrite stringify_obj.
    apply transparent_bracketed; try reflexivity.
    induction IH as [|[k x] l Hx Hl IHl]; [constructor|].
    cbn [flat_map]. unfold member_text at 1. unfold item_text in Hx.
    cbn [fst snd] in *.
    destruct (JSON_stringify x) as [t|]; [|exact IHl].
    constructor; [|exact IHl]. now apply transparent_member.
Qed.

Lemma items_balanced elems : balanced (join_commas (map item_text elems)).
Proof.
  unfold balanced.
  rewrite <- (append_nil_r (join_commas _)), join_commas_close, lex_list_text;
    [reflexivity|].
  induction elems; simpl; constructor; auto using transparent_item.
Qed.

(** The hashed payload of a call with a list of parameters determines the
    query text and the text of the parameters. *)
Lemma payload_splits sql1 sql2 elems1 elems2 :
  payload sql1 (AArray elems1) = payload sql2 (AArray elems2) ->
  sql1 = sql2 /\
  join_commas (map item_text elems1) = join_commas (map item_text elems2).
Proof.
  unfold payload, stringify_arg. rewrite !stringify_arr. simpl. intros E.
  assert (G : forall a b l1 l2 p,
             a = b ++ p ->
             "[" ++ join_commas (map item_text l2) ++ "]"
             = p ++ "[" ++ join_commas (map item_text l1) ++ "]" ->
             a = b /\ join_commas (map item_text l1) = join_commas (map item_text l2)).
  { intros a b l1 l2 p -> Ep.
    pose proof (bracketed_suffix p _ _ (items_balanced l2) (items_balanced l1) Ep).
    subst p. rewrite append_nil_r. split; [reflexivity|].
    simpl in Ep. injection Ep as Ep. apply append_inv_last in Ep. now destruct Ep. }
  destruct (append_eq_append _ _ _ _ E) as [p [[Ea Ex] | [Eb Ey]]].
  - exact (G _ _ _ _ _ Ea Ex).
  - destruct (G _ _ _ _ _ Eb Ey). auto.
Qed.

Example stringify_row :
  JSON_stringify (JArr [JObj [("1+2", JNum 3)]])
  = Some (String "[" (String "{" (quote "1+2" ++ ":3}]"))).
Proof. reflexivity. Qed.

Example stringify_holes :
  JSON_stringify (JArr [JUndefined; JNaN; JNum (-12); JStr "a"; JObj [("k", JUndefined)]])
  = Some ("[null,null,-12," ++ quote "a" ++ ",{}]").
Proof. reflexivity. Qed.

(** *** Reading back what JSON.stringify writes *)

Lemma read_chars_escape_char c rest :
  Sim.read_chars (escape_char c ++ rest)
  = match Sim.read_chars rest with
    | Some (t, r) => Some (String c t, r)
    | None => None
    end.
Proof. destruct c as [[] [] [] [] [] [] [] []]; reflexivity. Qed.

Lemma read_chars_escape s r :
  Sim.read_chars (escape s ++ String dquote r) = Some (s, r).
Proof.
  induction s as [|c s IH]; [reflexivity|].
  simpl. rewrite append_assoc, read_chars_escape_char, IH. reflexivity.
Qed.

Lemma quote_inj s1 s2 r1 r2 :
  quote s1 ++ r1 = quote s2 ++ r2 -> s1 = s2 /\ r1 = r2.
Proof.
  unfold quote. simpl. rewrite !append_assoc. simpl. intros E.
  injection E as E. apply (f_equal Sim.read_chars) in E.
  rewrite !read_chars_escape in E. injection E; auto.
Qed.

Lemma numchars_delimited a b r1 r2 :
  all_numchar a = true -> all_numchar b = true ->
  delimited r1 = true -> delimited r2 = true ->
  a ++ r1 = b ++ r2 -> a = b /\ r1 = r2.
Proof.
  revert b. induction a as [|x a IH]; intros [|y b] Ha Hb D1 D2 E; simpl in *.
  - auto.
  - subst r1. simpl in D1. apply andb_true_iff in Hb. destruct Hb as [Hy _].
    rewrite Hy in D1. discriminate.
  - subst r2. simpl in D2. apply andb_true_iff in Ha. destruct Ha as [Hx _].
    rewrite Hx in D2. discriminate.
  - injection E as -> E.
    apply andb_true_iff in Ha. apply andb_true_iff in Hb.
    destruct (IH b) as [-> ->]; tauto.
Qed.

Lemma number_to_string_inj z1 z2 :
  number_to_string z1 = number_to_string z2 -> z1 = z2.
Proof.
  unfold number_to_string. intros E.
  assert (N : forall z, NilZero.int_of_string (NilZero.string_of_int (Z.to_int z))
                        = Some (Z.to_int z)).
  { intros z. apply NilZero.isi; destruct z; simpl; try discriminate;
      intros I; injection I; apply DecimalPos.Unsigned.to_uint_nonnil. }
  apply (f_equal NilZero.int_of_string) in E. rewrite !N in E.
  injection E as E. now apply DecimalZ.to_int_inj.
Qed.

Lemma item_starts_value v : starts_value (item_text v) = true.
Proof.
  destruct v as [ | |[]|z| |s|elems|props]; try reflexivity.
  unfold item_text. simpl. destruct (number_head z) as (c & t & -> & Hc).
  simpl. unfold value_start. now rewrite Hc.
Qed.

Lemma faithful_stringify v :
  faithful v = true -> JSON_stringify v = Some (item_text v).
Proof. destruct v as [ | |[]|z| |s|elems|props]; try discriminate; reflexivity. Qed.

(** *** Lists of texts that can be read back *)

Section Lists.

Variables (A : Type) (f : A -> string) (ok : A -> bool) (close : ascii).

Hypothesis f_starts_value : forall a, starts_value (f a) = true.
Hypothesis close_is_not_a_start : value_start close = false.
Hypothesis close_is_not_a_comma : Ascii.eqb close ","%char = false.

Lemma tail_text_delimited l r :
  delimited (tail_text (map f l) (String close r)) = true.
Proof.
  destruct l; simpl; [|reflexivity].
  clear - close_is_not_a_start. unfold value_start in *.
  destruct (numchar close); [discriminate | reflexivity].
Qed.

Lemma tail_text_inj l1 :
  Forall (reads_back A f ok) l1 ->
  forall l2 r1 r2,
    forallb ok l2 = true ->
    tail_text (map f l1) (String close r1) = tail_text (map f l2) (String close r2) ->
    l1 = l2 /\ r1 = r2.
Proof.
  induction 1 as [|a1 l1 Ha Hl IH]; intros [|a2 l2] r1 r2 Hok E; simpl in *.
  - injection E; auto.
  - injection E as E _. rewrite E in close_is_not_a_comma. discriminate.
  - injection E as E _. rewrite <- E in close_is_not_a_comma. discriminate.
  - injection E as E. apply andb_true_iff in Hok. destruct Hok as [Hok2 Hok].
    destruct (Ha a2 _ _ Hok2 (tail_text_delimited _ _) (tail_text_delimited _ _) E)
      as [-> E'].
    destruct (IH _ _ _ Hok E') as [-> ->]. auto.
Qed.

Lemma list_text_inj l1 l2 r1 r2 :
  Forall (reads_back A f ok) l1 ->
  forallb ok l2 = true ->
  list_text (map f l1) (String close r1) = list_text (map f l2) (String close r2) ->
  l1 = l2 /\ r1 = r2.
Proof.
  intros H1 Hok E. destruct H1 as [|a1 l1 Ha Hl], l2 as [|a2 l2]; simpl in *.
  - injection E; auto.
  - pose proof (f_starts_value a2) as S. destruct (f a2) as [|c t]; [discriminate|].
    simpl in *. injection E as <- _. congruence.
  - pose proof (f_starts_value a1) as S. destruct (f a1) as [|c t]; [discriminate|].
    simpl in *. injection E as -> _. congruence.
  - apply andb_true_iff in Hok. destruct Hok as [Hok2 Hok].
    destruct (Ha a2 _ _ Hok2 (tail_text_delimited _ _) (tail_text_delimited _ _) E)
      as [-> E'].
    destruct (tail_text_inj _ Hl _ _ _ Hok E') as [-> ->]. auto.
Qed.

End Lists.

(** *** JSON.stringify loses nothing on faithful values *)

Lemma faithful_members props :
  forallb (fun p => faithful (snd p)) props = true ->
  flat_map member_text props = map member_string props.
Proof.
  induction props as [|[k x] l IH]; [reflexivity|]. simpl.
  intros F. apply andb_true_iff in F. destruct F as [Fx Fl].
  unfold member_text at 1, member_string at 1. simpl.
  rewrite (faithful_stringify x Fx), IH by assumption. reflexivity.
Qed.

(** Two texts whose first characters differ. *)
Ltac head_clash E :=
  unfold item_text in E; simpl in E;
  repeat match type of E with
         | context [number_to_string ?z] =>
             let c := fresh "c" in
             let t := fresh "t" in
             let Hn := fresh "Hn" in
             let Hc := fresh "Hc" in
             destruct (number_head z) as (c & t & Hn & Hc);
             rewrite Hn in E; simpl in E
         end;
  injection E; intros; subst; discriminate.

Lemma Forall_reads_back (A : Type) (f : A -> string) (ok : A -> bool) l :
  Forall (fun a => ok a = true -> reads_back A f ok a) l ->
  forallb ok l = true ->
  Forall (reads_back A f ok) l.
Proof.
  induction 1 as [|a l Ha Hl IH]; simpl; intros F; constructor;
    apply andb_true_iff in F; destruct F; auto.
Qed.

Lemma item_reads_back v :
  faithful v = true -> reads_back jsval item_text faithful v.
Proof.
  induction v as [ | |b1|z1| |s1|elems1 IH|props1 IH] using jsval_ind;
    intros F1; try discriminate F1;
    intros v2 r1 r2 F2 D1 D2 E;
    destruct v2 as [ | |b2|z2| |s2|elems2|props2]; try discriminate F2;
    try (exfalso;
         repeat match goal with b : bool |- _ => destruct b end;
         head_clash E).
  - injection E; auto.
  - destruct b1, b2; try (exfalso; head_clash E); simpl in E; injection E; auto.
  - destruct (numchars_delimited _ _ _ _ (number_numchar z1) (number_numchar z2)
                D1 D2 E) as [Ez ->].
    apply number_to_string_inj in Ez. subst. auto.
  - destruct (quote_inj _ _ _ _ E) as [-> ->]. auto.
  - unfold item_text in E. rewrite !stringify_arr in E. simpl in E.
    injection E as E. rewrite !append_assoc, !join_commas_close in E. simpl in E.
    destruct (list_text_inj jsval item_text faithful "]"%char
                item_starts_value eq_refl eq_refl
                elems1 elems2 r1 r2 (Forall_reads_back _ _ _ _ IH F1) F2 E)
      as [-> ->].
    auto.
  - unfold item_text in E. rewrite !stringify_obj in E. simpl in E.
    simpl in F1, F2. rewrite !faithful_members in E by assumption.
    injection E as E. rewrite !append_assoc, !join_commas_close in E. simpl in E.
    assert (R : Forall (fun p => faithful (snd p) = true ->
                                 reads_back (string * jsval) member_string
                                            (fun p => faithful (snd p)) p) props1).
    { clear - IH. induction IH as [|[k1 x1] l Hx Hl IHl]; constructor; auto.
      cbn [fst snd] in *. intros Fx [k2 x2] t1 t2 Fx2 T1 T2 Em.
      unfold member_string in Em. cbn [fst snd] in *.
      rewrite !append_assoc in Em.
      destruct (quote_inj _ _ _ _ Em) as [-> Em'].
      simpl in Em'. injection Em' as Em'.
      destruct (Hx Fx x2 t1 t2 Fx2 T1 T2 Em') as [-> ->]. auto. }
    destruct (list_text_inj (string * jsval) member_string
                (fun p => faithful (snd p)) "}"%char
                (fun p => eq_refl) eq_refl eq_refl
                props1 props2 r1 r2 (Forall_reads_back _ _ _ _ R F1) F2 E)
      as [-> ->].
    auto.
Qed.

Lemma items_inj elems1 elems2 :
  forallb faithful elems1 = true -> forallb faithful elems2 = true ->
  join_commas (map item_text elems1) = join_commas (map item_text elems2) ->
  elems1 = elems2.
Proof.
  intros F1 F2 E.
  apply (f_equal (fun s => s ++ "]")) in E. rewrite !join_commas_close in E.
  apply (list_text_inj jsval item_text faithful "]"%char
           item_starts_value eq_refl eq_refl elems1 elems2 EmptyString EmptyString);
    auto.
  apply Forall_reads_back; [|exact F1].
  apply Forall_forall. intros v _. apply item_reads_back.
Qed.

(** Under the full strategy, with no literal key and one prefix, the key of
    a call with a list of faithful parameters determines the query text and
    the parameters. *)
Lemma full_key_determines `{HashLib} this options sql1 sql2 elems1 elems2 :
  resolved_hashType this options = HashTypes.full ->
  prop_hash options = None \/ prop_hash options = Some EmptyString ->
  forallb faithful elems1 = true ->
  forallb faithful elems2 = true ->
  cache_key this sql1 (AArray elems1) options
  = cache_key this sql2 (AArray elems2) options ->
  sql1 = sql2 /\ elems1 = elems2.
Proof.
  intros Hfull Hlit F1 F2 E. unfold cache_key in E. rewrite Hfull in E.
  assert (E' : payload sql1 (AArray elems1) = payload sql2 (AArray elems2)).
  { destruct Hlit as [Hlit | Hlit]; rewrite Hlit in E; simpl in E;
      now apply append_inv_head in E. }
  destruct (payload_splits _ _ _ _ E') as [-> Ej].
  split; [reflexivity|]. now apply items_inj.
Qed.

(** C3 (amended). Under the full strategy, with no literal key and one
    prefix, two distinct (sql, params) pairs whose params are lists of
    faithful values (no [undefined], no non-finite number) get distinct
    keys. *)
Theorem full_key_injective `{HashLib} this options sql1 sql2 elems1 elems2 :
  resolved_hashType this options = HashTypes.full ->
  prop_hash options = None \/ prop_hash options = Some EmptyString ->
  forallb faithful elems1 = true ->
  forallb faithful elems2 = true ->
  (sql1, elems1) <> (sql2, elems2) ->
  cache_key this sql1 (AArray elems1) options
  <> cache_key this sql2 (AArray elems2) options.
Proof.
  intros Hfull Hlit F1 F2 Hne E. apply Hne.
  destruct (full_key_determines this options sql1 sql2 elems1 elems2) as [-> ->];
    auto.
Qed.

(** C3 (amended), at a concrete input: the text [1] and the number [1] as
    the parameter of one query. *)
Lemma full_key_injective_witness :
  resolved_hashType proxy_full AUndefined = HashTypes.full /\
  prop_hash AUndefined = None /\
  forallb faithful [JStr "1"] = true /\
  forallb faithful [JNum 1] = true /\
  ("select ?", [JStr "1"]) <> ("select ?", [JNum 1]) /\
  cache_key proxy_full "select ?" (AArray [JStr "1"]) AUndefined
  <> cache_key proxy_full "select ?" (AArray [JNum 1]) AUndefined.
Proof.
  do 4 (split; [reflexivity|]).
  assert (Hne : ("select ?", [JStr "1"]) <> ("select ?", [JNum 1])) by discriminate.
  split; [exact Hne|].
  exact (full_key_injective proxy_full AUndefined "select ?" "select ?"
           [JStr "1"] [JNum 1] eq_refl (or_introl eq_refl) eq_refl eq_refl Hne).
Defined.

(** C3, as stated, fails: [JSON.stringify] writes [null] for [undefined] (and
    for NaN), so under the full strategy the parameter lists [[null]] and
    [[undefined]] of one query get one key. *)
Lemma full_key_collision :
  cache_key proxy_full "select ?" (AArray [JNull]) AUndefined = "sql.select ?[null]" /\
  cache_key proxy_full "select ?" (AArray [JUndefined]) AUndefined = "sql.select ?[null]" /\
  cache_key proxy_full "select ?" (AArray [JNaN]) AUndefined = "sql.select ?[null]" /\
  [JNull] <> [JUndefined] /\ [JNull] <> [JNaN].
Proof. repeat split; try reflexivity; discriminate. Qed.

(* ================================================================== *)
(** ** Running the model *)

Ltac unfold_model :=
  unfold serve_from_cache,
    await_mysql, await_get, await_set, parse_redisResult, call, resolve, reject,
    mysqlConn_query, redisClient_get, redisClient_set,
    try_catch, bind, ret, throw, emit in *.

Ltac destruct_calls :=
  repeat match goal with
  | |- context [mysql_query ?w ?s ?p] =>
      destruct (mysql_query w s p) as [[?|? ?] ?] eqn:?; simpl
  | |- context [redis_get ?w ?k] =>
      destruct (redis_get w k) as [[?|[?|]] ?] eqn:?; simpl
  | |- context [redis_set ?w ?k ?v ?e] =>
      destruct (redis_set w k v e) as [[?|] ?] eqn:?; simpl
  | |- context [JSON_parse ?t] =>
      destruct (JSON_parse t) eqn:?; simpl
  | |- context [callback_handler ?a ?b ?c] =>
      destruct (callback_handler a b c) eqn:?; simpl
  end.

Section Properties.

Context {W : Type} `{HashLib} `{JsonLib} `{Stores W}.

(** The key derivation returns [cache_key] and leaves the stores alone; it
    records one call of [hash], or none when a literal key is given. *)
Lemma derive_key_run this sql values options (w : W) :
  exists t,
    (t = [] \/
     t = [EvHash (payload sql values) (resolved_hashType this options)])
    /\ (forall h, prop_hash options = Some h -> h <> EmptyString -> t = [])
    /\ forall A (k : string -> M W A),
        bind (derive_key this sql values options) k (w, [])
        = k (cache_key this sql values options) (w, t).
Proof.
  unfold derive_key, cache_key, literal_or_hash, hash_call, bind, ret, emit.
  destruct (prop_hash options) as [[|c h]|]; simpl.
  - eexists; split; [now right|]. split; [|reflexivity].
    intros h Hh; inversion Hh; congruence.
  - exists []. split; [now left|]. split; reflexivity.
  - eexists; split; [now right|]. split; [|reflexivity].
    intros h Hh; inversion Hh.
Qed.

(** Every invocation starts with the key derivation. *)
Ltac start_lit i this sql w t Ht Hlit :=
  unfold trace_of, run, invoke, MysqlRedis_query, MysqlRedisAsync_query;
  let Hd := fresh "Hd" in
  destruct (derive_key_run this sql (values_of i) (options_of i) w)
    as (t & Ht & Hlit & Hd);
  simpl values_of in Hd; simpl options_of in Hd; rewrite !Hd; clear Hd.

Ltac start i this sql w t Ht :=
  let Hlit := fresh "Hlit" in start_lit i this sql w t Ht Hlit.

(** C9. In SKIP mode no call reaches the cache store, whether the primary
    store succeeds or fails, and the caller receives the primary store's
    result, or its error, as it is. *)
Theorem skip_mode_bypasses_cache this sql i w :
  has_handler i = true ->
  mode_of this i = Caching.SKIP ->
  let tr := trace_of (invoke this sql i) w in
  cache_ops tr = [] /\
  result_of i tr
  = Some match fst (mysql_query w sql (params_of (values_of i))) with
         | MysqlErr mysqlErr => Failure mysqlErr JUndefined
         | MysqlOk mysqlResult fields => Success mysqlResult fields
         end.
Proof.
  intros Hh Hm tr; subst tr. unfold mode_of in Hm.
  destruct i as [values _options _cb | values options0];
    cbn [values_of options_of has_handler result_of] in *.
  - start (CompletionStyle values _options _cb) this sql w t Ht.
    rewrite Hm. simpl.
    destruct (callback_handler values _options _cb); try discriminate.
    unfold_model. destruct_calls; destruct Ht as [-> | ->]; simpl; auto.
  - start (PromiseStyle values options0) this sql w t Ht.
    rewrite Hm. simpl.
    unfold_model. destruct_calls; destruct Ht as [-> | ->]; simpl; auto.
Qed.

(** C6 (amended). In CACHE mode, when the primary store fails and the cache
    store holds at the derived key a text that [JSON.parse] accepts, the
    caller receives no error: the payload is the deserialized text and the
    metadata is exactly [[{cacheHit: key}]]. *)
Theorem cache_mode_fallback_hit this sql i w mysqlErr w1 text w2 v :
  has_handler i = true ->
  mode_of this i = Caching.CACHE ->
  mysql_query w sql (params_of (values_of i)) = (MysqlErr mysqlErr, w1) ->
  redis_get w1 (key_of this sql i) = (GetOk (Some text), w2) ->
  JSON_parse text = Some v ->
  result_of i (trace_of (invoke this sql i) w)
  = Some (Success v (cacheHit (key_of this sql i))).
Proof.
  intros Hh Hm Hq Hg Hp. unfold mode_of, key_of in *.
  destruct i as [values _options _cb | values options0];
    cbn [values_of options_of has_handler result_of] in *.
  - start (CompletionStyle values _options _cb) this sql w t Ht.
    rewrite Hm. simpl.
    destruct (callback_handler values _options _cb); try discriminate.
    unfold_model. rewrite Hq. simpl. rewrite Hg. simpl. rewrite Hp. simpl.
    destruct Ht as [-> | ->]; reflexivity.
  - start (PromiseStyle values options0) this sql w t Ht.
    rewrite Hm. simpl.
    unfold_model. rewrite Hq. simpl. rewrite Hg. simpl. rewrite Hp. simpl.
    destruct Ht as [-> | ->]; reflexivity.
Qed.

(** C7. In CACHE mode, when the primary store fails and the cache store
    has nothing at the derived key, the call runs to its end without
    raising an error and the caller receives a null payload with the
    metadata [[{cacheHit: key}]]. *)
Theorem cache_mode_fallback_miss this sql i w mysqlErr w1 w2 :
  has_handler i = true ->
  mode_of this i = Caching.CACHE ->
  mysql_query w sql (params_of (values_of i)) = (MysqlErr mysqlErr, w1) ->
  redis_get w1 (key_of this sql i) = (GetOk None, w2) ->
  fst (run (invoke this sql i) w) = Normal tt /\
  result_of i (trace_of (invoke this sql i) w)
  = Some (Success JNull (cacheHit (key_of this sql i))).
Proof.
  intros Hh Hm Hq Hg. unfold mode_of, key_of in *.
  destruct i as [values _options _cb | values options0];
    cbn [values_of options_of has_handler result_of] in *.
  - start (CompletionStyle values _options _cb) this sql w t Ht.
    rewrite Hm. simpl.
    destruct (callback_handler values _options _cb); try discriminate.
    unfold_model. rewrite Hq. simpl. rewrite Hg. simpl.
    destruct Ht as [-> | ->]; split; reflexivity.
  - start (PromiseStyle values options0) this sql w t Ht.
    rewrite Hm. simpl.
    unfold_model. rewrite Hq. simpl. rewrite Hg. simpl.
    rewrite JSON_parse_null. simpl.
    destruct Ht as [-> | ->]; split; reflexivity.
Qed.

(** C8. When the options carry a non-empty literal key, [hash] is not
    called, and the key of the invocation, which is the key of every call
    to the cache store, is the resolved prefix followed by the literal. *)
Theorem literal_key_skips_hash this sql i w h :
  prop_hash (options_of i) = Some h ->
  h <> EmptyString ->
  let tr := trace_of (invoke this sql i) w in
  let key := resolved_prefix this (options_of i) ++ h in
  key_of this sql i = key /\
  hash_calls tr = [] /\
  Forall (fun ev => op_key ev = Some key) (cache_ops tr).
Proof.
  intros Hh Hne tr key; subst tr key.
  assert (Hk : key_of this sql i = resolved_prefix this (options_of i) ++ h).
  { unfold key_of, cache_key. rewrite Hh. destruct h; [congruence | reflexivity]. }
  split; [exact Hk|]. rewrite <- Hk. unfold key_of. clear Hk.
  destruct i as [values _options _cb | values options0];
    cbn [values_of options_of has_handler result_of] in *.
  - start_lit (CompletionStyle values _options _cb) this sql w t Ht Hlit.
    rewrite (Hlit h Hh Hne).
    destruct (resolved_caching this _ =? Caching.SKIP);
      [|destruct (resolved_caching this _ =? Caching.REFRESH)];
      unfold_model; destruct_calls; split; repeat constructor.
  - start_lit (PromiseStyle values options0) this sql w t Ht Hlit.
    rewrite (Hlit h Hh Hne).
    destruct (resolved_caching this _ =? Caching.SKIP);
      [|destruct (resolved_caching this _ =? Caching.REFRESH)];
      unfold_model; destruct_calls;
      try destruct (truthy _ && truthy _); simpl; destruct_calls;
      split; repeat constructor.
Qed.

(** C10 (amended). In the promise adapter under CACHE mode, when the primary
    store succeeds with a falsy result or falsy field metadata, the cache is read
    at the derived key and the write of the primary result to the cache is
    attempted after the read; when the read answers and what it answers
    deserializes, the promise is fulfilled with the deserialized cached
    payload and the cache-hit marker, not with the primary result. *)
Theorem promise_serves_cache_on_falsy_primary
        this sql values options0 w mysqlResult fields w1 :
  let i := PromiseStyle values options0 in
  let tr := trace_of (invoke this sql i) w in
  mode_of this i = Caching.CACHE ->
  mysql_query w sql (params_of values) = (MysqlOk mysqlResult fields, w1) ->
  truthy mysqlResult && truthy fields = false ->
  (exists more,
      cache_ops tr
      = EvRedisGet (key_of this sql i)
        :: EvRedisSet (key_of this sql i) (JSON_stringify mysqlResult)
                      (resolved_expire this (options_of i))
        :: more) /\
  (forall redisResult w2 v,
      redis_get w1 (key_of this sql i) = (GetOk redisResult, w2) ->
      JSON_parse (redis_text redisResult) = Some v ->
      result_of i tr = Some (Success v (cacheHit (key_of this sql i)))).
Proof.
  intros i tr Hm Hq Hf; subst i tr. unfold mode_of, key_of in *.
  cbn [values_of options_of has_handler result_of] in *.
  start (PromiseStyle values options0) this sql w t Ht.
  rewrite Hm. simpl. unfold_model. rewrite Hq. simpl. rewrite Hf. simpl. split.
  - destruct_calls; destruct Ht as [-> | ->]; simpl; eexists; reflexivity.
  - intros redisResult w2 v Hg Hp. rewrite Hg. simpl. rewrite Hp. simpl.
    destruct_calls; destruct Ht as [-> | ->]; reflexivity.
Qed.

(** C1 (amended). Take a completion-style call and a promise-style call
    that resolve alike (a handler, the same params, cache key, caching mode
    and expiry), in a run where a successful primary query of CACHE mode
    yields a truthy result and truthy field metadata, the cache write does
    not fail and the text the cache holds deserializes. Both callers receive
    the same error, or the same payload and metadata. When the fallback read
    of CACHE mode fails, both receive the cache read error; the completion
    handler receives the cache-hit marker with it, the rejection carries the
    error alone. *)
Theorem adapters_agree this sql values _options _cb values' options0 w :
  let ci := CompletionStyle values _options _cb in
  let pi := PromiseStyle values' options0 in
  same_resolution this sql ci pi ->
  regular_run this sql pi w = true ->
  exists c p,
    result_of ci (trace_of (invoke this sql ci) w) = Some c /\
    result_of pi (trace_of (invoke this sql pi) w) = Some p /\
    same_delivery c p /\
    (mode_of this pi = Caching.CACHE ->
     forall mysqlErr w1 redisErr w2,
       mysql_query w sql (params_of values') = (MysqlErr mysqlErr, w1) ->
       redis_get w1 (key_of this sql pi) = (GetErr redisErr, w2) ->
       c = Failure redisErr (cacheHit (key_of this sql pi)) /\
       p = Failure redisErr JUndefined).
Proof.
  intros ci pi (Hh & Hps & Hkey & Hc & Hex) Hreg; subst ci pi.
  unfold regular_run, mode_of, key_of in *.
  cbn [values_of options_of has_handler result_of] in *.
  assert (Hcb : callback_handler values _options _cb = AFunction).
  { destruct (callback_handler values _options _cb); try discriminate; reflexivity. }
  start (CompletionStyle values _options _cb) this sql w t1 Ht1.
  start (PromiseStyle values' options0) this sql w t2 Ht2.
  rewrite Hcb, Hps, Hkey, Hc, Hex.
  set (key := cache_key this sql values' (effective_options values' options0)) in *.
  set (ex := resolved_expire this (effective_options values' options0)) in *.
  set (mode := resolved_caching this (effective_options values' options0)) in *.
  destruct (mode =? Caching.SKIP) eqn:Hskip;
    [|destruct (mode =? Caching.REFRESH) eqn:Hrefresh].
  - apply Z.eqb_eq in Hskip.
    unfold_model.
    destruct (mysql_query w sql (params_of values')) as [[e|r f] w1] eqn:Hq; simpl;
      destruct Ht1 as [-> | ->], Ht2 as [-> | ->]; simpl;
      do 2 eexists; (split; [reflexivity|]); (split; [reflexivity|]);
      (split; [simpl; auto|]); intros Hm; rewrite Hm in Hskip; discriminate.
  - apply Z.eqb_eq in Hrefresh.
    unfold_model.
    destruct (mysql_query w sql (params_of values')) as [[e|r f] w1] eqn:Hq; simpl;
      [|destruct (redis_set w1 key (JSON_stringify r) ex) as [[e'|] w2];
        simpl in Hreg; try discriminate; simpl];
      destruct Ht1 as [-> | ->], Ht2 as [-> | ->]; simpl;
      do 2 eexists; (split; [reflexivity|]); (split; [reflexivity|]);
      (split; [simpl; auto|]); intros Hm; rewrite Hm in Hrefresh; discriminate.
  - unfold_model.
    destruct (mysql_query w sql (params_of values')) as [[e|r f] w1] eqn:Hq; simpl.
    + destruct (redis_get w1 key) as [[e2|[text|]] w2] eqn:Hg; simpl in *.
      * destruct Ht1 as [-> | ->], Ht2 as [-> | ->]; simpl;
          do 2 eexists; (split; [reflexivity|]); (split; [reflexivity|]);
          (split; [simpl; auto|]); intros _ ? ? ? ? Hq' Hg';
          inversion Hq'; subst; rewrite Hg in Hg'; inversion Hg'; subst; auto.
      * destruct (JSON_parse text) as [v|]; [|discriminate]. simpl.
        destruct Ht1 as [-> | ->], Ht2 as [-> | ->]; simpl;
          do 2 eexists; (split; [reflexivity|]); (split; [reflexivity|]);
          (split; [simpl; auto|]); intros _ ? ? ? ? Hq' Hg';
          inversion Hq'; subst; rewrite Hg in Hg'; inversion Hg'.
      * rewrite JSON_parse_null. simpl.
        destruct Ht1 as [-> | ->], Ht2 as [-> | ->]; simpl;
          do 2 eexists; (split; [reflexivity|]); (split; [reflexivity|]);
          (split; [simpl; auto|]); intros _ ? ? ? ? Hq' Hg';
          inversion Hq'; subst; rewrite Hg in Hg'; inversion Hg'.
    + apply andb_true_iff in Hreg. destruct Hreg as [Hr Hs].
      rewrite Hr. simpl.
      destruct (redis_set w1 key (JSON_stringify r) ex) as [[e'|] w2];
        simpl in Hs; try discriminate; simpl.
      destruct Ht1 as [-> | ->], Ht2 as [-> | ->]; simpl;
        do 2 eexists; (split; [reflexivity|]); (split; [reflexivity|]);
        (split; [simpl; auto|]); intros _ ? ? ? ? Hq'; inversion Hq'.
Qed.

End Properties.

(* ================================================================== *)
(** ** The properties at concrete inputs *)

(** The example of the specification: with the full strategy the key of
    [query("select 1+2", [])] is [sql.select 1+2[]]; once the result is
    cached, a call whose primary query fails is served the cached rows with
    the cache-hit marker. *)
Example end_to_end :
  let first := run (invoke proxy_full "select 1+2" select_promise)
                   (healthy (MysqlOk row row_fields) []) in
  let cached := Sim.bindings (fst (snd first)) in
  cached = [("sql.select 1+2[]", row_text)] /\
  result_of select_promise
    (trace_of (invoke proxy_full "select 1+2" select_promise)
              (healthy (MysqlErr (Err "primary down")) cached))
  = Some (Success row (cacheHit "sql.select 1+2[]")).
Proof. split; reflexivity. Qed.

(** C9, at a concrete input: a SKIP-mode call on healthy stores. *)
Lemma skip_mode_bypasses_cache_witness :
  has_handler select_completion = true /\
  mode_of proxy_skip select_completion = Caching.SKIP /\
  cache_ops (trace_of (invoke proxy_skip "select 1+2" select_completion)
                      (healthy (MysqlOk row row_fields) [])) = [] /\
  result_of select_completion
    (trace_of (invoke proxy_skip "select 1+2" select_completion)
              (healthy (MysqlOk row row_fields) []))
  = Some (Success row row_fields).
Proof.
  split; [reflexivity|]. split; [reflexivity|].
  exact (skip_mode_bypasses_cache proxy_skip "select 1+2" select_completion
           (healthy (MysqlOk row row_fields) []) eq_refl eq_refl).
Defined.

(** C6 (amended), at a concrete input: the primary store is down and the cache holds
    the rows of [select 1+2]. *)
Lemma cache_mode_fallback_hit_witness :
  has_handler select_completion = true /\
  mode_of proxy_full select_completion = Caching.CACHE /\
  result_of select_completion
    (trace_of (invoke proxy_full "select 1+2" select_completion)
              (healthy (MysqlErr (Err "primary down")) [("sql.select 1+2[]", row_text)]))
  = Some (Success row (cacheHit "sql.select 1+2[]")).
Proof.
  split; [reflexivity|]. split; [reflexivity|].
  exact (cache_mode_fallback_hit proxy_full "select 1+2" select_completion
           (healthy (MysqlErr (Err "primary down")) [("sql.select 1+2[]", row_text)])
           (Err "primary down") _ row_text _ row
           eq_refl eq_refl eq_refl eq_refl eq_refl).
Defined.

(** C7, at a concrete input: the primary store is down and the cache is
    empty. *)
Lemma cache_mode_fallback_miss_witness :
  has_handler select_promise = true /\
  mode_of proxy_full select_promise = Caching.CACHE /\
  fst (run (invoke proxy_full "select 1+2" select_promise)
           (healthy (MysqlErr (Err "primary down")) [])) = Normal tt /\
  result_of select_promise
    (trace_of (invoke proxy_full "select 1+2" select_promise)
              (healthy (MysqlErr (Err "primary down")) []))
  = Some (Success JNull (cacheHit "sql.select 1+2[]")).
Proof.
  split; [reflexivity|]. split; [reflexivity|].
  exact (cache_mode_fallback_miss proxy_full "select 1+2" select_promise
           (healthy (MysqlErr (Err "primary down")) [])
           (Err "primary down") _ _ eq_refl eq_refl eq_refl eq_refl).
Defined.

(** C8, at a concrete input: a call that brings its own key and prefix. *)
Lemma literal_key_skips_hash_witness :
  prop_hash (options_of literal_completion) = Some "three" /\
  "three" <> EmptyString /\
  key_of proxy_full "select 1+2" literal_completion = "app:three" /\
  hash_calls (trace_of (invoke proxy_full "select 1+2" literal_completion)
                       (healthy (MysqlOk row row_fields) [])) = [] /\
  Forall (fun ev => op_key ev = Some "app:three")
         (cache_ops (trace_of (invoke proxy_full "select 1+2" literal_completion)
                              (healthy (MysqlOk row row_fields) []))).
Proof.
  split; [reflexivity|]. split; [discriminate|].
  refine (literal_key_skips_hash proxy_full "select 1+2" literal_completion
            (healthy (MysqlOk row row_fields) []) "three" eq_refl _).
  discriminate.
Defined.

(** C10 (amended), at a concrete input: a statement that returns no field metadata,
    while the cache holds rows at its key. *)
Lemma promise_serves_cache_on_falsy_primary_witness :
  mode_of proxy_full bare_promise = Caching.CACHE /\
  truthy update_result && truthy JUndefined = false /\
  cache_ops (trace_of (invoke proxy_full "update t set a=1" bare_promise)
                      (healthy (MysqlOk update_result JUndefined)
                               [("sql.update t set a=1undefined", row_text)]))
  = [EvRedisGet "sql.update t set a=1undefined";
     EvRedisSet "sql.update t set a=1undefined" (JSON_stringify update_result)
                2629746] /\
  result_of bare_promise
    (trace_of (invoke proxy_full "update t set a=1" bare_promise)
              (healthy (MysqlOk update_result JUndefined)
                       [("sql.update t set a=1undefined", row_text)]))
  = Some (Success row (cacheHit "sql.update t set a=1undefined")).
Proof.
  split; [reflexivity|]. split; [reflexivity|]. split; [reflexivity|].
  exact (proj2 (promise_serves_cache_on_falsy_primary
           proxy_full "update t set a=1" AUndefined AUndefined
           (healthy (MysqlOk update_result JUndefined)
                    [("sql.update t set a=1undefined", row_text)])
           update_result JUndefined _ eq_refl eq_refl eq_refl)
           (Some row_text) _ row eq_refl eq_refl).
Defined.

(** C1 (amended), at a concrete input: both styles of
    [query("select 1+2", [])] on healthy stores. *)
Lemma adapters_agree_witness :
  same_resolution proxy_full "select 1+2" select_completion select_promise /\
  regular_run proxy_full "select 1+2" select_promise
              (healthy (MysqlOk row row_fields) []) = true /\
  exists c p,
    result_of select_completion
      (trace_of (invoke proxy_full "select 1+2" select_completion)
                (healthy (MysqlOk row row_fields) [])) = Some c /\
    result_of select_promise
      (trace_of (invoke proxy_full "select 1+2" select_promise)
                (healthy (MysqlOk row row_fields) [])) = Some p /\
    same_delivery c p.
Proof.
  assert (R : same_resolution proxy_full "select 1+2" select_completion select_promise)
    by (repeat split; reflexivity).
  assert (G : regular_run proxy_full "select 1+2" select_promise
                           (healthy (MysqlOk row row_fields) []) = true)
    by reflexivity.
  split; [exact R|]. split; [exact G|].
  destruct (adapters_agree proxy_full "select 1+2" (AArray []) AFunction AUndefined
              (AArray []) AUndefined (healthy (MysqlOk row row_fields) []) R G)
    as (c & p & Hc & Hp & Hsame & _).
  exists c, p. auto.
Defined.

(** C1, as stated, fails: for a statement that returns no field metadata the
    completion handler receives the primary result, and the promise is
    fulfilled with what the cache holds (nothing) and the cache-hit marker. *)
Lemma adapters_disagree_on_falsy_fields :
  result_of bare_completion
    (trace_of (invoke proxy_full "update t set a=1" bare_completion)
              (healthy (MysqlOk update_result JUndefined) []))
  = Some (Success update_result JUndefined) /\
  result_of bare_promise
    (trace_of (invoke proxy_full "update t set a=1" bare_promise)
              (healthy (MysqlOk update_result JUndefined) []))
  = Some (Success JNull (cacheHit "sql.update t set a=1undefined")) /\
  ~ same_delivery (Success update_result JUndefined)
                  (Success JNull (cacheHit "sql.update t set a=1undefined")).
Proof.
  split; [reflexivity|]. split; [reflexivity|].
  simpl. intros [Hd _]. discriminate.
Qed.

(** When the fallback read fails, the completion handler receives the
    cache-hit marker along with the error; the rejection has no place for
    it. *)
Lemma rejection_carries_no_marker :
  result_of select_completion
    (trace_of (invoke proxy_full "select 1+2" select_completion)
              (cache_down (MysqlErr (Err "primary down"))))
  = Some (Failure (Err "cache read failed") (cacheHit "sql.select 1+2[]")) /\
  result_of select_promise
    (trace_of (invoke proxy_full "select 1+2" select_promise)
              (cache_down (MysqlErr (Err "primary down"))))
  = Some (Failure (Err "cache read failed") JUndefined).
Proof. split; reflexivity. Qed.

(** The call forms that resolve alike: the handler after the last argument
    given, unless the options are [null] while the values are an options
    object; the handler in fourth place, unless the options are falsy while
    the values are an options object. *)
Lemma call_forms_resolve_alike `{HashLib} this sql values options0 :
  (options0 <> ANull \/ (forall o, values <> AObject o) ->
   same_resolution this sql (with_callback values options0)
                   (PromiseStyle values options0)) /\
  (arg_truthy options0 = true \/ (forall o, values <> AObject o) ->
   same_resolution this sql (CompletionStyle values options0 AFunction)
                   (PromiseStyle values options0)).
Proof.
  split; intros [Ho | Hv];
    destruct options0, values;
    try congruence; try discriminate;
    try (exfalso; eapply Hv; reflexivity);
    repeat split; reflexivity.
Qed.

(** Where they resolve apart, the outcomes part too. With the options object
    [{caching: Caching.SKIP}] as values and the options [undefined] or
    [null], line 56 takes the options given (none: CACHE mode) and line 158
    takes the values (SKIP mode): with the primary store down, the
    completion handler is served from the cache and the promise is
    rejected. *)
Lemma adapters_resolve_options_apart :
  (mode_of proxy_full (CompletionStyle skip_options AUndefined AFunction) = Caching.CACHE /\
   mode_of proxy_full (CompletionStyle skip_options ANull AFunction) = Caching.CACHE /\
   mode_of proxy_full (PromiseStyle skip_options AUndefined) = Caching.SKIP /\
   mode_of proxy_full (PromiseStyle skip_options ANull) = Caching.SKIP) /\
  (result_of (CompletionStyle skip_options AUndefined AFunction)
     (trace_of (invoke proxy_full "select 1+2"
                       (CompletionStyle skip_options AUndefined AFunction))
               down_with_entry)
   = Some (Success row (cacheHit (key_of proxy_full "select 1+2"
                                         (PromiseStyle skip_options AUndefined)))) /\
   result_of (PromiseStyle skip_options AUndefined)
     (trace_of (invoke proxy_full "select 1+2" (PromiseStyle skip_options AUndefined))
               down_with_entry)
   = Some (Failure (Err "primary down") JUndefined)) /\
  (with_callback skip_options ANull = CompletionStyle skip_options ANull AFunction /\
   result_of (with_callback skip_options ANull)
     (trace_of (invoke proxy_full "select 1+2" (with_callback skip_options ANull))
               down_with_entry)
   = Some (Success row (cacheHit (key_of proxy_full "select 1+2"
                                         (PromiseStyle skip_options ANull)))) /\
   result_of (PromiseStyle skip_options ANull)
     (trace_of (invoke proxy_full "select 1+2" (PromiseStyle skip_options ANull))
               down_with_entry)
   = Some (Failure (Err "primary down") JUndefined)).
Proof. repeat split; reflexivity. Qed.

(** C6, as stated, fails: the cache can hold, at the derived key, a text
    that is not JSON. With the primary store down in CACHE mode, the promise
    is rejected with the SyntaxError, and the completion-style call throws
    it and never invokes its handler. *)
Lemma fallback_hit_fails_on_unparsable_text :
  mode_of proxy_full select_promise = Caching.CACHE /\
  mode_of proxy_full select_completion = Caching.CACHE /\
  Sim.primary corrupt_entry = MysqlErr (Err "primary down") /\
  Sim.lookup (key_of proxy_full "select 1+2" select_promise)
             (Sim.bindings corrupt_entry) = Some "{oops" /\
  result_of select_promise
    (trace_of (invoke proxy_full "select 1+2" select_promise) corrupt_entry)
  = Some (Failure (SyntaxError "{oops") JUndefined) /\
  fst (run (invoke proxy_full "select 1+2" select_completion) corrupt_entry)
  = Throw (SyntaxError "{oops") /\
  result_of select_completion
    (trace_of (invoke proxy_full "select 1+2" select_completion) corrupt_entry)
  = None.
Proof. repeat split; reflexivity. Qed.

(** C10, as stated, fails: when the read of the cache fails, the promise of
    a call whose primary query succeeded with falsy field metadata is
    rejected with the error of the read; it is not resolved with a cached
    payload. *)
Lemma falsy_primary_is_rejected_when_read_fails :
  mode_of proxy_full bare_promise = Caching.CACHE /\
  Sim.primary (cache_down (MysqlOk update_result JUndefined))
  = MysqlOk update_result JUndefined /\
  truthy update_result && truthy JUndefined = false /\
  result_of bare_promise
    (trace_of (invoke proxy_full "update t set a=1" bare_promise)
              (cache_down (MysqlOk update_result JUndefined)))
  = Some (Failure (Err "cache read failed") JUndefined).
Proof. repeat split; reflexivity. Qed.

(** C2 fails on the promise adapter. The primary query succeeds and the
    cache write fails: in REFRESH mode the promise is rejected with the write
    error; in CACHE mode the adapter turns to the cache and the promise is
    fulfilled with what it holds and the cache-hit marker, or rejected with
    the read error. The completion handler receives the primary result in
    all three runs. *)
Theorem promise_surfaces_write_failure :
  (result_of select_promise
     (trace_of (invoke proxy_refresh "select 1+2" select_promise)
               (read_only_cache (MysqlOk row row_fields) []))
   = Some (Failure (Err "cache write failed") JUndefined) /\
   result_of select_completion
     (trace_of (invoke proxy_refresh "select 1+2" select_completion)
               (read_only_cache (MysqlOk row row_fields) []))
   = Some (Success row row_fields)) /\
  (result_of select_promise
     (trace_of (invoke proxy_full "select 1+2" select_promise)
               (read_only_cache (MysqlOk row row_fields) []))
   = Some (Success JNull (cacheHit "sql.select 1+2[]")) /\
   result_of select_completion
     (trace_of (invoke proxy_full "select 1+2" select_completion)
               (read_only_cache (MysqlOk row row_fields) []))
   = Some (Success row row_fields)) /\
  (result_of select_promise
     (trace_of (invoke proxy_full "select 1+2" select_promise)
               (cache_down (MysqlOk row row_fields)))
   = Some (Failure (Err "cache read failed") JUndefined) /\
   result_of select_completion
     (trace_of (invoke proxy_full "select 1+2" select_completion)
               (cache_down (MysqlOk row row_fields)))
   = Some (Success row row_fields)).
Proof. repeat split; reflexivity. Qed.

(** C4 fails on the code. The payload that is hashed is the query text
    followed by [undefined] when the parameters are left out, and followed by
    [[]] when they are an empty list; under the full strategy the two calls
    get different keys. *)
Theorem absent_params_payload `{HashLib} (sql : string) :
  payload sql AUndefined = sql ++ "undefined" /\
  payload sql AFunction = sql ++ "undefined" /\
  payload sql (AArray []) = sql ++ "[]" /\
  key_of proxy_full sql bare_promise = "sql." ++ sql ++ "undefined" /\
  key_of proxy_full sql bare_completion = "sql." ++ sql ++ "undefined" /\
  key_of proxy_full sql select_promise = "sql." ++ sql ++ "[]" /\
  key_of proxy_full sql bare_promise <> key_of proxy_full sql select_promise.
Proof.
  repeat (split; [reflexivity|]).
  unfold key_of, cache_key; simpl. intros E.
  injection E as E. apply append_inv_head in E. discriminate.
Qed.

(** C5 fails on the code. The strategy named farmhash32 (the default)
    encodes the 64-bit fingerprint of the payload, and the strategy named
    farmhash64 encodes the 32-bit fingerprint. *)
Theorem hash_fingerprints_swapped `{HashLib} (payload : string) :
  hash payload HashTypes.farmhash32
  = toString64 (Number_parseInt (fingerprint64 payload)) /\
  hash payload HashTypes.farmhash64
  = toString64 (Number_parseInt (fingerprint32 payload)).
Proof. split; reflexivity. Qed.

(** The completion-style adapter, for its part, keeps C2: whatever the cache
    write answers, a successful primary query is delivered as it is. *)
Lemma completion_style_ignores_write_failure
      `{HashLib} `{JsonLib} {W} `{Stores W}
      this sql values _options _cb (w w1 : W) mysqlResult fields :
  callback_handler values _options _cb = AFunction ->
  mysql_query w sql (params_of values) = (MysqlOk mysqlResult fields, w1) ->
  result_of (CompletionStyle values _options _cb)
            (trace_of (invoke this sql (CompletionStyle values _options _cb)) w)
  = Some (Success mysqlResult fields).
Proof.
  intros Hcb Hq.
  unfold trace_of, run, invoke, MysqlRedis_query.
  destruct (derive_key_run this sql values (callback_options values _options _cb) w)
    as (t & Ht & _ & Hd).
  rewrite Hd, Hcb.
  destruct (resolved_caching this _ =? Caching.SKIP);
    [|destruct (resolved_caching this _ =? Caching.REFRESH)];
    unfold_model; rewrite Hq; simpl; destruct_calls;
    destruct Ht as [-> | ->]; reflexivity.
Qed.

(* ================================================================== *)
(** ** The conduct of a call, whatever the stores answer *)

Section Conduct.

Context {W : Type} `{HashLib} `{JsonLib} `{Stores W}.

Ltac enter i this sql w t Ht Hlit :=
  unfold trace_of, run, invoke, MysqlRedis_query, MysqlRedisAsync_query;
  let Hd := fresh "Hd" in
  destruct (derive_key_run this sql (values_of i) (options_of i) w)
    as (t & Ht & Hlit & Hd);
  simpl values_of in Hd; simpl options_of in Hd; rewrite !Hd; clear Hd.

(** Every branch of both adapters, every answer of the stores. *)
Ltac walk :=
  repeat match goal with
  | |- context [resolved_caching ?this ?o =? ?m] =>
      destruct (resolved_caching this o =? m) eqn:?
  end;
  unfold_model; destruct_calls;
  repeat match goal with
  | |- context [truthy ?a && truthy ?b] =>
      destruct (truthy a && truthy b) eqn:?; simpl; destruct_calls
  end.

(** X1. The primary store is queried exactly once in every call, with the query
    text and with the parameters when they are a list (with [[]] otherwise),
    and nothing but the call of [hash] comes before: no cache operation, no
    delivery. *)
Theorem primary_queried_once_and_first this sql i w :
  let tr := trace_of (invoke this sql i) w in
  primary_queries tr = [EvMysqlQuery sql (params_of (values_of i))] /\
  Forall (fun ev => is_hash_call ev = true) (before_primary tr).
Proof.
  intros tr; subst tr.
  destruct i as [values _options _cb | values options0];
    cbn [values_of options_of].
  - enter (CompletionStyle values _options _cb) this sql w t Ht Hlit.
    walk; destruct Ht as [-> | ->]; simpl; split; repeat constructor.
  - enter (PromiseStyle values options0) this sql w t Ht Hlit.
    walk; destruct Ht as [-> | ->]; simpl; split; repeat constructor.
Qed.

(** The key derivation, with what it records. *)
Lemma derive_key_record this sql values options (w : W) A (k : string -> M W A) :
  bind (derive_key this sql values options) k (w, [])
  = k (cache_key this sql values options) (w, hash_record this sql values options).
Proof.
  unfold derive_key, cache_key, hash_record, literal_or_hash, hash_call,
    bind, ret, emit.
  destruct (prop_hash options) as [[|c h]|]; reflexivity.
Qed.

(** X2. Without a literal key, [hash] is called exactly once in every call, on
    the query text followed by [JSON.stringify(values)], with the resolved
    hash type. *)
Theorem hash_called_once_without_literal this sql i w :
  prop_hash (options_of i) = None \/ prop_hash (options_of i) = Some EmptyString ->
  hash_calls (trace_of (invoke this sql i) w)
  = [EvHash (payload sql (values_of i)) (resolved_hashType this (options_of i))].
Proof.
  intros Hlit.
  assert (Hr : hash_record this sql (values_of i) (options_of i)
               = [EvHash (payload sql (values_of i))
                         (resolved_hashType this (options_of i))]).
  { unfold hash_record. destruct Hlit as [-> | ->]; reflexivity. }
  destruct i as [values _options _cb | values options0];
    cbn [values_of options_of] in *;
    unfold trace_of, run, invoke, MysqlRedis_query, MysqlRedisAsync_query;
    rewrite derive_key_record, Hr; walk; reflexivity.
Qed.

(** X3. Every call to the cache store is issued at the derived key. *)
Theorem cache_ops_at_derived_key this sql i w :
  Forall (fun ev => op_key ev = Some (key_of this sql i))
         (cache_ops (trace_of (invoke this sql i) w)).
Proof.
  unfold key_of.
  destruct i as [values _options _cb | values options0];
    cbn [values_of options_of].
  - enter (CompletionStyle values _options _cb) this sql w t Ht Hlit.
    walk; destruct Ht as [-> | ->]; simpl; repeat constructor.
  - enter (PromiseStyle values options0) this sql w t Ht Hlit.
    walk; destruct Ht as [-> | ->]; simpl; repeat constructor.
Qed.

(** X4. A completion-style call issues at most one cache operation and invokes
    its handler at most once. *)
Theorem completion_style_at_most_once this sql values _options _cb w :
  let tr := trace_of (invoke this sql (CompletionStyle values _options _cb)) w in
  (length (cache_ops tr) <= 1)%nat /\ (length (callback_calls tr) <= 1)%nat.
Proof.
  intros tr; subst tr.
  enter (CompletionStyle values _options _cb) this sql w t Ht Hlit.
  walk; destruct Ht as [-> | ->]; simpl; split; auto.
Qed.

(** X5. A promise-style call that has reached the primary store (that is,
    once [JSON.stringify(values)] and [hash], which run outside every [try],
    have returned) lets no exception escape and settles its promise, by
    [resolve] or by [reject], whatever the stores answer; it issues at most
    three cache operations. *)
Theorem promise_style_settles_once_queried this sql values options0 w :
  let i := PromiseStyle values options0 in
  let tr := trace_of (invoke this sql i) w in
  primary_queries tr <> [] ->
  fst (run (invoke this sql i) w) = Normal tt /\
  result_of i tr <> None /\
  (length (cache_ops tr) <= 3)%nat.
Proof.
  intros i tr _; subst i tr. cbn [result_of].
  enter (PromiseStyle values options0) this sql w t Ht Hlit.
  walk; destruct Ht as [-> | ->]; simpl;
    (split; [reflexivity|]); (split; [discriminate|]); auto.
Qed.

(** X6. With a handler supplied, the delivery of a completion-style call is
    all or nothing: when the call returns, the handler has been invoked
    exactly once, as the last thing the call did; when the call throws, the
    handler has not been invoked. *)
Theorem completion_style_all_or_nothing this sql values _options _cb w :
  let i := CompletionStyle values _options _cb in
  let tr := trace_of (invoke this sql i) w in
  has_handler i = true ->
  match fst (run (invoke this sql i) w) with
  | Normal _ =>
      exists before err data fields,
        tr = (before ++ [EvCallback err data fields])%list /\
        callback_calls before = []
  | Throw _ => callback_calls tr = []
  end.
Proof.
  intros i tr Hh; subst i tr. cbn [values_of options_of has_handler] in *.
  enter (CompletionStyle values _options _cb) this sql w t Ht Hlit.
  destruct (callback_handler values _options _cb); try discriminate.
  walk; destruct Ht as [-> | ->]; simpl; try reflexivity;
    match goal with
    | |- exists before err data fields, ?l = _ /\ _ =>
        exists (removelast l); do 3 eexists; split; reflexivity
    end.
Qed.

(** X7. A cached text that [JSON.parse] rejects, met in the fallback of CACHE
    mode: the completion-style call throws the SyntaxError and never invokes
    its handler; the promise is rejected with the SyntaxError. *)
Theorem corrupt_cache_entry this sql i w mysqlErr w1 text w2 :
  has_handler i = true ->
  mode_of this i = Caching.CACHE ->
  mysql_query w sql (params_of (values_of i)) = (MysqlErr mysqlErr, w1) ->
  redis_get w1 (key_of this sql i) = (GetOk (Some text), w2) ->
  JSON_parse text = None ->
  match i with
  | CompletionStyle _ _ _ =>
      fst (run (invoke this sql i) w) = Throw (SyntaxError text) /\
      callback_calls (trace_of (invoke this sql i) w) = []
  | PromiseStyle _ _ =>
      fst (run (invoke this sql i) w) = Normal tt /\
      result_of i (trace_of (invoke this sql i) w)
      = Some (Failure (SyntaxError text) JUndefined)
  end.
Proof.
  intros Hh Hm Hq Hg Hp. unfold mode_of, key_of in *.
  destruct i as [values _options _cb | values options0];
    cbn [values_of options_of has_handler result_of] in *.
  - enter (CompletionStyle values _options _cb) this sql w t Ht Hlit.
    rewrite Hm. simpl.
    destruct (callback_handler values _options _cb); try discriminate.
    unfold_model. rewrite Hq. simpl. rewrite Hg. simpl. rewrite Hp. simpl.
    destruct Ht as [-> | ->]; split; reflexivity.
  - enter (PromiseStyle values options0) this sql w t Ht Hlit.
    rewrite Hm. simpl.
    unfold_model. rewrite Hq. simpl. rewrite Hg. simpl. rewrite Hp. simpl.
    destruct Ht as [-> | ->]; split; reflexivity.
Qed.

(** X8. A completion-style call with no function where it looks for its handler
    queries the primary store all the same, then throws; nothing is
    delivered. *)
Theorem missing_handler_throws_after_query this sql values _options _cb w :
  let i := CompletionStyle values _options _cb in
  let tr := trace_of (invoke this sql i) w in
  has_handler i = false ->
  primary_queries tr = [EvMysqlQuery sql (params_of values)] /\
  callback_calls tr = [] /\
  exists e, fst (run (invoke this sql i) w) = Throw e.
Proof.
  intros i tr Hh; subst i tr. cbn [values_of options_of has_handler] in *.
  enter (CompletionStyle values _options _cb) this sql w t Ht Hlit.
  destruct (callback_handler values _options _cb); try discriminate;
    walk; destruct Ht as [-> | ->]; simpl;
    (split; [reflexivity|]); (split; [reflexivity|]); eexists; reflexivity.
Qed.

(** X9. In REFRESH mode a failure of the primary store reaches the caller as it
    is, and the cache store is not called: there is no fallback. *)
Theorem refresh_mode_failure this sql i w mysqlErr w1 :
  has_handler i = true ->
  mode_of this i = Caching.REFRESH ->
  mysql_query w sql (params_of (values_of i)) = (MysqlErr mysqlErr, w1) ->
  let tr := trace_of (invoke this sql i) w in
  cache_ops tr = [] /\
  result_of i tr = Some (Failure mysqlErr JUndefined).
Proof.
  intros Hh Hm Hq tr; subst tr. unfold mode_of in *.
  destruct i as [values _options _cb | values options0];
    cbn [values_of options_of has_handler result_of] in *.
  - enter (CompletionStyle values _options _cb) this sql w t Ht Hlit.
    rewrite Hm. simpl.
    destruct (callback_handler values _options _cb); try discriminate.
    unfold_model. rewrite Hq. simpl.
    destruct Ht as [-> | ->]; split; reflexivity.
  - enter (PromiseStyle values options0) this sql w t Ht Hlit.
    rewrite Hm. simpl.
    unfold_model. rewrite Hq. simpl.
    destruct Ht as [-> | ->]; split; reflexivity.
Qed.

(** X10. In REFRESH mode a success of the primary store is followed by exactly
    one cache operation: the write of [JSON.stringify(mysqlResult)] at the
    derived key with the resolved expiry. The completion handler receives the
    primary result whatever the write answers; the promise is fulfilled with
    it when the write succeeds and rejected with the write error when it
    fails. *)
Theorem refresh_mode_success this sql i w mysqlResult fields w1 :
  has_handler i = true ->
  mode_of this i = Caching.REFRESH ->
  mysql_query w sql (params_of (values_of i)) = (MysqlOk mysqlResult fields, w1) ->
  let tr := trace_of (invoke this sql i) w in
  let key := key_of this sql i in
  let ex := resolved_expire this (options_of i) in
  cache_ops tr = [EvRedisSet key (JSON_stringify mysqlResult) ex] /\
  result_of i tr
  = Some match i, fst (redis_set w1 key (JSON_stringify mysqlResult) ex) with
         | PromiseStyle _ _, SetErr err => Failure err JUndefined
         | _, _ => Success mysqlResult fields
         end.
Proof.
  intros Hh Hm Hq tr key ex; subst tr key ex. unfold mode_of, key_of in *.
  destruct i as [values _options _cb | values options0];
    cbn [values_of options_of has_handler result_of] in *.
  - enter (CompletionStyle values _options _cb) this sql w t Ht Hlit.
    rewrite Hm. simpl.
    destruct (callback_handler values _options _cb); try discriminate.
    unfold_model. rewrite Hq. simpl.
    destruct (redis_set w1 _ _ _) as [[err|] w2]; simpl;
      destruct Ht as [-> | ->]; split; reflexivity.
  - enter (PromiseStyle values options0) this sql w t Ht Hlit.
    rewrite Hm. simpl.
    unfold_model. rewrite Hq. simpl.
    destruct (redis_set w1 _ _ _) as [[err|] w2]; simpl;
      destruct Ht as [-> | ->]; split; reflexivity.
Qed.

(** X11. In CACHE mode a success of the primary store with a truthy result and
    truthy field metadata, followed by a cache write that succeeds, is
    delivered as it is; the write of [JSON.stringify(mysqlResult)] at the
    derived key with the resolved expiry is the only cache operation: the
    cache is not read. *)
Theorem cache_mode_write_through this sql i w mysqlResult fields w1 w2 :
  has_handler i = true ->
  mode_of this i = Caching.CACHE ->
  mysql_query w sql (params_of (values_of i)) = (MysqlOk mysqlResult fields, w1) ->
  truthy mysqlResult && truthy fields = true ->
  redis_set w1 (key_of this sql i) (JSON_stringify mysqlResult)
            (resolved_expire this (options_of i)) = (SetOk, w2) ->
  let tr := trace_of (invoke this sql i) w in
  cache_ops tr
  = [EvRedisSet (key_of this sql i) (JSON_stringify mysqlResult)
                (resolved_expire this (options_of i))] /\
  result_of i tr = Some (Success mysqlResult fields) /\
  fst (snd (run (invoke this sql i) w)) = w2.
Proof.
  intros Hh Hm Hq Ht' Hs tr; subst tr. unfold mode_of, key_of in *.
  destruct i as [values _options _cb | values options0];
    cbn [values_of options_of has_handler result_of] in *.
  - enter (CompletionStyle values _options _cb) this sql w t Ht Hlit.
    rewrite Hm. simpl.
    destruct (callback_handler values _options _cb); try discriminate.
    unfold_model. rewrite Hq. simpl. rewrite Hs. simpl.
    destruct Ht as [-> | ->]; repeat split; reflexivity.
  - enter (PromiseStyle values options0) this sql w t Ht Hlit.
    rewrite Hm. simpl.
    unfold_model. rewrite Hq. simpl. rewrite Ht'. simpl. rewrite Hs. simpl.
    destruct Ht as [-> | ->]; repeat split; reflexivity.
Qed.

(** X12. In CACHE mode, when the primary store fails and the fallback read fails
    too, the caller receives the error of the cache read, not the error of
    the primary store; the completion handler receives the cache-hit marker
    with it. The read is the only cache operation. *)
Theorem cache_mode_fallback_read_failure this sql i w mysqlErr w1 redisErr w2 :
  has_handler i = true ->
  mode_of this i = Caching.CACHE ->
  mysql_query w sql (params_of (values_of i)) = (MysqlErr mysqlErr, w1) ->
  redis_get w1 (key_of this sql i) = (GetErr redisErr, w2) ->
  let tr := trace_of (invoke this sql i) w in
  cache_ops tr = [EvRedisGet (key_of this sql i)] /\
  result_of i tr
  = Some (Failure redisErr
            match i with
            | CompletionStyle _ _ _ => cacheHit (key_of this sql i)
            | PromiseStyle _ _ => JUndefined
            end).
Proof.
  intros Hh Hm Hq Hg tr; subst tr. unfold mode_of, key_of in *.
  destruct i as [values _options _cb | values options0];
    cbn [values_of options_of has_handler result_of] in *.
  - enter (CompletionStyle values _options _cb) this sql w t Ht Hlit.
    rewrite Hm. simpl.
    destruct (callback_handler values _options _cb); try discriminate.
    unfold_model. rewrite Hq. simpl. rewrite Hg. simpl.
    destruct Ht as [-> | ->]; split; reflexivity.
  - enter (PromiseStyle values options0) this sql w t Ht Hlit.
    rewrite Hm. simpl.
    unfold_model. rewrite Hq. simpl. rewrite Hg. simpl.
    destruct Ht as [-> | ->]; split; reflexivity.
Qed.

(** X14. [Caching.CACHE] is the number 0: asked for in the options of a call, on
    a proxy whose mode is SKIP, it is falsy and the mode of the proxy stands.
    No cache operation is issued and the caller receives what the primary
    store answers. *)
Theorem cache_mode_cannot_be_asked_per_call this sql i w :
  has_handler i = true ->
  caching this = Caching.SKIP ->
  prop_caching (options_of i) = Some Caching.CACHE ->
  let tr := trace_of (invoke this sql i) w in
  mode_of this i = Caching.SKIP /\
  cache_ops tr = [] /\
  result_of i tr
  = Some match fst (mysql_query w sql (params_of (values_of i))) with
         | MysqlErr mysqlErr => Failure mysqlErr JUndefined
         | MysqlOk mysqlResult fields => Success mysqlResult fields
         end.
Proof.
  intros Hh Hs Hc tr; subst tr.
  assert (Hm : mode_of this i = Caching.SKIP).
  { unfold mode_of, resolved_caching. rewrite Hc, Hs. reflexivity. }
  split; [exact Hm|]. unfold mode_of in Hm. clear Hs Hc.
  destruct i as [values _options _cb | values options0];
    cbn [values_of options_of has_handler result_of] in *.
  - enter (CompletionStyle values _options _cb) this sql w t Ht Hlit.
    rewrite Hm. simpl.
    destruct (callback_handler values _options _cb); try discriminate.
    unfold_model. destruct_calls; destruct Ht as [-> | ->]; simpl; auto.
  - enter (PromiseStyle values options0) this sql w t Ht Hlit.
    rewrite Hm. simpl.
    unfold_model. destruct_calls; destruct Ht as [-> | ->]; simpl; auto.
Qed.

(** X15. On a proxy built by the constructor, whatever it is given, and for every
    call: the prefix of the key is not empty and heads the key, and no cache
    write is issued with the expiry 0. *)
Theorem constructed_proxy_prefix_and_expiry cacheOptions sql i w :
  let this := constructor cacheOptions in
  resolved_prefix this (options_of i) <> EmptyString /\
  String.prefix (resolved_prefix this (options_of i)) (key_of this sql i) = true /\
  Forall (fun ev => op_expire ev <> Some 0)
         (trace_of (invoke this sql i) w).
Proof.
  intros this.
  assert (Hor : forall x d, d <> 0 -> or_num x d <> 0).
  { intros [n|] d Hd; simpl; [|exact Hd].
    destruct (n =? 0) eqn:E; [exact Hd | now apply Z.eqb_neq]. }
  assert (Hos : forall x d, d <> EmptyString -> or_str x d <> EmptyString).
  { intros [[|c s]|] d Hd; simpl; congruence. }
  assert (Hk : keyPrefix this <> EmptyString).
  { apply Hos. discriminate. }
  assert (He : resolved_expire this (options_of i) <> 0).
  { apply Hor. apply Hor. discriminate. }
  split; [now apply Hos|]. split.
  { unfold key_of, cache_key. generalize (resolved_prefix this (options_of i)).
    intros p. induction p as [|c p IH]; simpl.
    - destruct (or_str _ _); reflexivity.
    - rewrite IH. destruct (Ascii.ascii_dec c c); congruence. }
  subst this.
  destruct i as [values _options _cb | values options0];
    cbn [values_of options_of] in *.
  - enter (CompletionStyle values _options _cb) (constructor cacheOptions) sql w t Ht Hlit.
    walk; destruct Ht as [-> | ->]; simpl; repeat constructor;
      simpl; try discriminate; congruence.
  - enter (PromiseStyle values options0) (constructor cacheOptions) sql w t Ht Hlit.
    walk; destruct Ht as [-> | ->]; simpl; repeat constructor;
      simpl; try discriminate; congruence.
Qed.

(** X16. In the promise adapter under CACHE mode, a cache write that fails after
    a primary success with a truthy result and truthy field metadata sends
    the call to the fallback: the key is read, and the promise settles with
    what the read gives, the cached payload with the cache-hit marker or the
    error of the read, not with the primary result. *)
Theorem promise_write_failure_falls_back
        this sql values options0 w mysqlResult fields w1 err w2 :
  let i := PromiseStyle values options0 in
  let tr := trace_of (invoke this sql i) w in
  let key := key_of this sql i in
  mode_of this i = Caching.CACHE ->
  mysql_query w sql (params_of values) = (MysqlOk mysqlResult fields, w1) ->
  truthy mysqlResult && truthy fields = true ->
  redis_set w1 key (JSON_stringify mysqlResult) (resolved_expire this (options_of i))
  = (SetErr err, w2) ->
  cache_ops tr
  = [EvRedisSet key (JSON_stringify mysqlResult) (resolved_expire this (options_of i));
     EvRedisGet key] /\
  result_of i tr
  = Some match fst (redis_get w2 key) with
         | GetErr redisErr => Failure redisErr JUndefined
         | GetOk redisResult =>
             match JSON_parse (redis_text redisResult) with
             | Some v => Success v (cacheHit key)
             | None => Failure (SyntaxError (redis_text redisResult)) JUndefined
             end
         end.
Proof.
  intros i tr key Hm Hq Ht' Hs; subst i tr key. unfold mode_of, key_of in *.
  cbn [values_of options_of has_handler result_of] in *.
  enter (PromiseStyle values options0) this sql w t Ht Hlit.
  rewrite Hm. simpl.
  unfold_model. rewrite Hq. simpl. rewrite Ht'. simpl. rewrite Hs. simpl.
  destruct (redis_get w2 _) as [[e2|g] w3]; simpl;
    [|destruct (JSON_parse (redis_text g))]; simpl;
    destruct Ht as [-> | ->]; split; reflexivity.
Qed.

(** X17. In the promise adapter under CACHE mode, a primary success with a falsy
    result or falsy field metadata is settled by the read of the cache alone:
    the cached payload with the cache-hit marker, the error of the read, or
    the SyntaxError of [JSON.parse]. The primary result is not delivered. *)
Theorem promise_falsy_primary_settles_by_read
        this sql values options0 w mysqlResult fields w1 :
  let i := PromiseStyle values options0 in
  let key := key_of this sql i in
  mode_of this i = Caching.CACHE ->
  mysql_query w sql (params_of values) = (MysqlOk mysqlResult fields, w1) ->
  truthy mysqlResult && truthy fields = false ->
  result_of i (trace_of (invoke this sql i) w)
  = Some match fst (redis_get w1 key) with
         | GetErr redisErr => Failure redisErr JUndefined
         | GetOk redisResult =>
             match JSON_parse (redis_text redisResult) with
             | Some v => Success v (cacheHit key)
             | None => Failure (SyntaxError (redis_text redisResult)) JUndefined
             end
         end.
Proof.
  intros i key Hm Hq Hf; subst i key. unfold mode_of, key_of in *.
  cbn [values_of options_of has_handler result_of] in *.
  enter (PromiseStyle values options0) this sql w t Ht Hlit.
  rewrite Hm. simpl.
  unfold_model. rewrite Hq. simpl. rewrite Hf. simpl.
  destruct (redis_get w1 _) as [[e2|g] w2]; simpl;
    [|destruct (JSON_parse (redis_text g))]; simpl;
    destruct_calls; destruct Ht as [-> | ->]; reflexivity.
Qed.

(** X21. In the completion adapter every success of the primary store is
    delivered as it is, in every mode, whatever the result is and whatever
    the cache write answers. The cache is never read; outside SKIP mode the
    write of [JSON.stringify(mysqlResult)] at the derived key is the one
    cache operation. *)
Theorem completion_style_primary_success
        this sql values _options _cb w mysqlResult fields w1 :
  let i := CompletionStyle values _options _cb in
  let tr := trace_of (invoke this sql i) w in
  has_handler i = true ->
  mysql_query w sql (params_of values) = (MysqlOk mysqlResult fields, w1) ->
  fst (run (invoke this sql i) w) = Normal tt /\
  result_of i tr = Some (Success mysqlResult fields) /\
  cache_ops tr
  = if mode_of this i =? Caching.SKIP then []
    else [EvRedisSet (key_of this sql i) (JSON_stringify mysqlResult)
                     (resolved_expire this (options_of i))].
Proof.
  intros i tr Hh Hq; subst i tr. unfold mode_of, key_of.
  cbn [values_of options_of has_handler result_of] in *.
  enter (CompletionStyle values _options _cb) this sql w t Ht Hlit.
  destruct (callback_handler values _options _cb); try discriminate.
  destruct (resolved_caching this _ =? Caching.SKIP);
    [|destruct (resolved_caching this _ =? Caching.REFRESH)];
    unfold_model; rewrite Hq; simpl; destruct_calls;
    destruct Ht as [-> | ->]; repeat split; reflexivity.
Qed.

(** X18. Where the handler stands among the arguments does not matter: the call
    forms [query(sql, cb)], [query(sql, undefined, cb)] and
    [query(sql, undefined, undefined, cb)] run alike, and so do
    [query(sql, params, cb)], [query(sql, params, undefined, cb)] and
    [query(sql, params, {}, cb)]. *)
Theorem handler_position_is_immaterial this sql elems w :
  (run (invoke this sql (CompletionStyle AFunction AUndefined AUndefined)) w
   = run (invoke this sql (CompletionStyle AUndefined AFunction AUndefined)) w /\
   run (invoke this sql (CompletionStyle AFunction AUndefined AUndefined)) w
   = run (invoke this sql (CompletionStyle AUndefined AUndefined AFunction)) w) /\
  (run (invoke this sql (CompletionStyle (AArray elems) AFunction AUndefined)) w
   = run (invoke this sql (CompletionStyle (AArray elems) AUndefined AFunction)) w /\
   run (invoke this sql (CompletionStyle (AArray elems) AFunction AUndefined)) w
   = run (invoke this sql (CompletionStyle (AArray elems) (AObject []) AFunction)) w).
Proof. repeat split; reflexivity. Qed.

(** X13. In CACHE mode the fallback after a failure of the primary store only
    reads: whatever the read answers, it is the only cache operation, and
    nothing is written to the cache. *)
Theorem cache_mode_fallback_only_reads this sql i w mysqlErr w1 :
  has_handler i = true ->
  mode_of this i = Caching.CACHE ->
  mysql_query w sql (params_of (values_of i)) = (MysqlErr mysqlErr, w1) ->
  cache_ops (trace_of (invoke this sql i) w) = [EvRedisGet (key_of this sql i)].
Proof.
  intros Hh Hm Hq. unfold mode_of, key_of in *.
  destruct i as [values _options _cb | values options0];
    cbn [values_of options_of has_handler result_of] in *.
  - enter (CompletionStyle values _options _cb) this sql w t Ht Hlit.
    rewrite Hm. simpl.
    destruct (callback_handler values _options _cb); try discriminate.
    unfold_model. rewrite Hq. simpl.
    destruct_calls; destruct Ht as [-> | ->]; reflexivity.
  - enter (PromiseStyle values options0) this sql w t Ht Hlit.
    rewrite Hm. simpl.
    unfold_model. rewrite Hq. simpl.
    destruct_calls; destruct Ht as [-> | ->]; reflexivity.
Qed.

End Conduct.

(* ================================================================== *)
(** ** Options in the place of the parameters *)

Lemma wrapped_suffix (o1 c1 o2 c2 : ascii) p b1 b2 :
  is_open o2 = true ->
  balanced b1 -> balanced b2 ->
  String o1 (b1 ++ String c1 EmptyString) = p ++ String o2 (b2 ++ String c2 EmptyString) ->
  p = EmptyString.
Proof.
  intros Ho B1 B2 E. destruct p as [|c p]; [reflexivity|]. exfalso.
  simpl in E. injection E as _ E.
  change (String o2 (b2 ++ String c2 EmptyString))
    with ((String o2 b2) ++ String c2 EmptyString) in E.
  rewrite <- append_assoc in E.
  apply append_inv_last in E. destruct E as [E _].
  unfold balanced in B1. rewrite E, lex_app in B1.
  destruct (lex Structural 0 p) as [[m d]|] eqn:Lp; [|discriminate].
  assert (So : forall d', lex_step Structural d' o2 = Some (Structural, S d')
                          /\ lex_step InString d' o2 = Some (InString, d')).
  { clear - Ho. intros d'.
    destruct o2 as [[] [] [] [] [] [] [] []]; try discriminate; split; reflexivity. }
  destruct m; cbn [lex] in B1.
  - rewrite (proj1 (So d)) in B1.
    rewrite (balanced_at b2 (S d) B2) in B1. discriminate.
  - rewrite (proj2 (So d)) in B1.
    pose proof (lex_opposite b2 InString d Structural 0 _ _ _ _
                  (or_introl (conj eq_refl eq_refl)) B1 B2) as [[? _] | [_ ?]];
      discriminate.
  - simpl in B1.
    pose proof (lex_opposite b2 InString d Structural 0 _ _ _ _
                  (or_introl (conj eq_refl eq_refl)) B1 B2) as [[? _] | [_ ?]];
      discriminate.
Qed.

Lemma members_balanced props : balanced (join_commas (flat_map member_text props)).
Proof.
  unfold balanced.
  rewrite <- (append_nil_r (join_commas _)), join_commas_close, lex_list_text;
    [reflexivity|].
  induction props as [|[k x] l IH]; [constructor|].
  cbn [flat_map]. apply Forall_app. split; [|exact IH].
  unfold member_text. cbn [fst snd].
  pose proof (transparent_item x) as Tx. unfold item_text in Tx.
  destruct (JSON_stringify x) as [t|]; constructor; [|constructor].
  now apply transparent_member.
Qed.

Lemma field_prop_inj f1 f2 : field_prop f1 = field_prop f2 -> f1 = f2.
Proof. destruct f1, f2; simpl; intros E; try discriminate; injection E; congruence. Qed.

Lemma options_text_inj o1 o2 :
  options_faithful o1 = true -> options_faithful o2 = true ->
  stringify_arg (AObject o1) = stringify_arg (AObject o2) -> o1 = o2.
Proof.
  intros F1 F2 E.
  change (JSON_stringify (JObj (map field_prop o1))
          = JSON_stringify (JObj (map field_prop o2))) in E.
  assert (Fm : forall o, options_faithful o = true ->
                         faithful (JObj (map field_prop o)) = true).
  { intros o F. simpl. unfold options_faithful in F.
    induction o as [|f o IH]; simpl in *; [reflexivity|].
    apply andb_true_iff in F. destruct F as [Ff Fo]. rewrite Ff. now apply IH. }
  assert (Et : item_text (JObj (map field_prop o1)) ++ EmptyString
               = item_text (JObj (map field_prop o2)) ++ EmptyString).
  { unfold item_text. now rewrite E. }
  destruct (item_reads_back _ (Fm o1 F1) _ EmptyString EmptyString (Fm o2 F2)
                            eq_refl eq_refl Et) as [Ej _].
  injection Ej as Ej. clear - Ej. revert o2 Ej.
  induction o1 as [|f1 o1 IH]; intros [|f2 o2] Ej; simpl in Ej;
    try discriminate; [reflexivity|].
  injection Ej as Ef Ej. apply field_prop_inj in Ef. subst.
  f_equal. now apply IH.
Qed.

(** X19. An options object passed in the place of the parameters, as in
    [query(sql, options)], is part of what is hashed. Take two options
    objects made of the properties [expire], [hashType], [caching] (each an
    integer below 2^53 in absolute value) and [keyPrefix] (a string), with
    no [hash] property, both resolving to the full strategy:
    when they differ, in a property, a value or the order of the properties,
    the two calls get different keys, whatever their query texts (the same
    query with another expiry is another cache entry). *)
Theorem options_in_params_place_change_key `{HashLib} this sql1 sql2 o1 o2 :
  resolved_hashType this (AObject o1) = HashTypes.full ->
  resolved_hashType this (AObject o2) = HashTypes.full ->
  get_hash o1 = None -> get_hash o2 = None ->
  options_faithful o1 = true -> options_faithful o2 = true ->
  o1 <> o2 ->
  key_of this sql1 (PromiseStyle (AObject o1) AUndefined)
  <> key_of this sql2 (PromiseStyle (AObject o2) AUndefined).
Proof.
  intros Hf1 Hf2 Hl1 Hl2 F1 F2 Hne E. apply Hne.
  unfold key_of, cache_key in E. cbn [values_of options_of effective_options
    arg_truthy isArray negb prop_hash] in E.
  rewrite Hf1, Hf2, Hl1, Hl2 in E. cbn [or_str hash Z.eqb HashTypes.full
    HashTypes.blake2b512 Pos.eqb] in E.
  apply options_text_inj; try assumption.
  unfold payload, stringify_arg in E |- *. rewrite !stringify_obj in E.
  rewrite !stringify_obj. f_equal.
  unfold concat_text in E.
  rewrite <- (append_assoc (resolved_prefix this (AObject o1)) sql1),
          <- (append_assoc (resolved_prefix this (AObject o2)) sql2) in E.
  set (a := resolved_prefix this (AObject o1) ++ sql1) in E.
  set (b := resolved_prefix this (AObject o2) ++ sql2) in E.
  set (m1 := join_commas (flat_map member_text (map field_prop o1))) in *.
  set (m2 := join_commas (flat_map member_text (map field_prop o2))) in *.
  assert (B1 : balanced m1) by apply members_balanced.
  assert (B2 : balanced m2) by apply members_balanced.
  destruct (append_eq_append _ _ _ _ E) as [p [[Ea Ex] | [Eb Ey]]].
  - pose proof (wrapped_suffix "{"%char "}"%char "{"%char "}"%char p m2 m1
                  eq_refl B2 B1 Ex). subst p.
    simpl in Ex. injection Ex as Ex. now rewrite Ex.
  - pose proof (wrapped_suffix "{"%char "}"%char "{"%char "}"%char p m1 m2
                  eq_refl B1 B2 Ey). subst p.
    simpl in Ey. injection Ey as Ey. now rewrite Ey.
Qed.

(* ================================================================== *)
(** ** A call that fills the cache and a call that is served from it *)

(** X20. On a cache store that keeps what is written and answers every
    operation: take a call with a handler in CACHE mode and a primary result
    that is truthy, comes with truthy field metadata, and has a JSON text
    from which [JSON.parse] gives it back. When the primary query succeeds
    with it, the call delivers the result and leaves its JSON text in the
    cache at the derived key; the same call made afterwards with the primary
    store down is served that result with the cache-hit marker. *)
Theorem write_through_then_fallback `{HashLib}
        this sql i mysqlResult fields text mysqlErr bindings :
  has_handler i = true ->
  mode_of this i = Caching.CACHE ->
  truthy mysqlResult && truthy fields = true ->
  JSON_stringify mysqlResult = Some text ->
  JSON_parse text = Some mysqlResult ->
  let first := run (invoke this sql i) (healthy (MysqlOk mysqlResult fields) bindings) in
  let kept := Sim.bindings (fst (snd first)) in
  result_of i (snd (snd first)) = Some (Success mysqlResult fields) /\
  kept = (key_of this sql i, text) :: bindings /\
  result_of i (trace_of (invoke this sql i) (healthy (MysqlErr mysqlErr) kept))
  = Some (Success mysqlResult (cacheHit (key_of this sql i))).
Proof.
  intros Hh Hm Ht' Hs Hp first kept; subst first kept.
  unfold mode_of, key_of in *.
  destruct i as [values _options _cb | values options0];
    cbn [values_of options_of has_handler result_of] in *.
  - unfold trace_of, run, invoke, MysqlRedis_query.
    rewrite !derive_key_record. rewrite Hm. simpl.
    destruct (callback_handler values _options _cb); try discriminate.
    unfold_model. simpl. rewrite Hs. simpl. rewrite String.eqb_refl. simpl.
    simpl in Hp. rewrite Hp. simpl.
    unfold hash_record; destruct (prop_hash _) as [[|c h]|]; repeat split; reflexivity.
  - unfold trace_of, run, invoke, MysqlRedisAsync_query.
    rewrite !derive_key_record. rewrite Hm. simpl.
    unfold_model. simpl. rewrite Ht'. simpl. rewrite Hs. simpl.
    rewrite String.eqb_refl. simpl.
    simpl in Hp. rewrite Hp. simpl.
    unfold hash_record; destruct (prop_hash _) as [[|c h]|]; repeat split; reflexivity.
Qed.

(* ================================================================== *)
(** ** The conduct of a call at concrete inputs *)

(** X2, at a concrete input: [query("select 1+2", [])]. *)
Lemma hash_called_once_without_literal_witness :
  (prop_hash (options_of select_promise) = None \/
   prop_hash (options_of select_promise) = Some EmptyString) /\
  hash_calls (trace_of (invoke proxy_full "select 1+2" select_promise)
                       (healthy (MysqlOk row row_fields) []))
  = [EvHash "select 1+2[]" HashTypes.full].
Proof.
  split; [left; reflexivity|].
  exact (hash_called_once_without_literal proxy_full "select 1+2" select_promise
           (healthy (MysqlOk row row_fields) []) (or_introl eq_refl)).
Defined.

(** X5, at a concrete input: both stores down. *)
Lemma promise_style_settles_once_queried_witness :
  primary_queries (trace_of (invoke proxy_full "select 1+2" select_promise)
                            (cache_down (MysqlErr (Err "primary down")))) <> [] /\
  fst (run (invoke proxy_full "select 1+2" select_promise)
           (cache_down (MysqlErr (Err "primary down")))) = Normal tt /\
  result_of select_promise
    (trace_of (invoke proxy_full "select 1+2" select_promise)
              (cache_down (MysqlErr (Err "primary down")))) <> None /\
  (length (cache_ops (trace_of (invoke proxy_full "select 1+2" select_promise)
                               (cache_down (MysqlErr (Err "primary down"))))) <= 3)%nat.
Proof.
  assert (Q : primary_queries
                (trace_of (invoke proxy_full "select 1+2" select_promise)
                          (cache_down (MysqlErr (Err "primary down")))) <> [])
    by discriminate.
  split; [exact Q|].
  exact (promise_style_settles_once_queried proxy_full "select 1+2"
           (AArray []) AUndefined (cache_down (MysqlErr (Err "primary down"))) Q).
Defined.

(** X6, at a concrete input: where it throws, and where it returns. *)
Lemma completion_style_all_or_nothing_witness :
  has_handler select_completion = true /\
  (fst (run (invoke proxy_full "select 1+2" select_completion) corrupt_entry)
   = Throw (SyntaxError "{oops") /\
   callback_calls (trace_of (invoke proxy_full "select 1+2" select_completion)
                            corrupt_entry) = []) /\
  exists before err data fields,
    trace_of (invoke proxy_full "select 1+2" select_completion)
             (healthy (MysqlOk row row_fields) [])
    = (before ++ [EvCallback err data fields])%list /\
    callback_calls before = [].
Proof.
  split; [reflexivity|]. split.
  - split; [reflexivity|].
    exact (completion_style_all_or_nothing proxy_full "select 1+2"
             (AArray []) AFunction AUndefined corrupt_entry eq_refl).
  - exact (completion_style_all_or_nothing proxy_full "select 1+2"
             (AArray []) AFunction AUndefined
             (healthy (MysqlOk row row_fields) []) eq_refl).
Defined.

(** X7, at a concrete input: in promise style. *)
Lemma corrupt_cache_entry_witness :
  has_handler select_promise = true /\
  mode_of proxy_full select_promise = Caching.CACHE /\
  JSON_parse "{oops" = None /\
  fst (run (invoke proxy_full "select 1+2" select_promise) corrupt_entry) = Normal tt /\
  result_of select_promise
    (trace_of (invoke proxy_full "select 1+2" select_promise) corrupt_entry)
  = Some (Failure (SyntaxError "{oops") JUndefined).
Proof.
  do 3 (split; [reflexivity|]).
  exact (corrupt_cache_entry proxy_full "select 1+2" select_promise corrupt_entry
           (Err "primary down") _ "{oops" _ eq_refl eq_refl eq_refl eq_refl eq_refl).
Defined.

(** X8, at a concrete input: [query("select 1+2", [])] in
    completion style. *)
Lemma missing_handler_throws_after_query_witness :
  has_handler no_handler = false /\
  primary_queries (trace_of (invoke proxy_full "select 1+2" no_handler)
                            (healthy (MysqlOk row row_fields) []))
  = [EvMysqlQuery "select 1+2" []] /\
  callback_calls (trace_of (invoke proxy_full "select 1+2" no_handler)
                           (healthy (MysqlOk row row_fields) [])) = [] /\
  exists e, fst (run (invoke proxy_full "select 1+2" no_handler)
                     (healthy (MysqlOk row row_fields) [])) = Throw e.
Proof.
  split; [reflexivity|].
  exact (missing_handler_throws_after_query proxy_full "select 1+2"
           (AArray []) AUndefined AUndefined
           (healthy (MysqlOk row row_fields) []) eq_refl).
Defined.

(** X9, at a concrete input: with the primary store down. *)
Lemma refresh_mode_failure_witness :
  has_handler select_promise = true /\
  mode_of proxy_refresh select_promise = Caching.REFRESH /\
  cache_ops (trace_of (invoke proxy_refresh "select 1+2" select_promise)
                      (healthy (MysqlErr (Err "primary down")) [])) = [] /\
  result_of select_promise
    (trace_of (invoke proxy_refresh "select 1+2" select_promise)
              (healthy (MysqlErr (Err "primary down")) []))
  = Some (Failure (Err "primary down") JUndefined).
Proof.
  do 2 (split; [reflexivity|]).
  exact (refresh_mode_failure proxy_refresh "select 1+2" select_promise
           (healthy (MysqlErr (Err "primary down")) [])
           (Err "primary down") _ eq_refl eq_refl eq_refl).
Defined.

(** X10, at a concrete input: in completion style, with a cache that refuses
    writes. *)
Lemma refresh_mode_success_witness :
  has_handler select_completion = true /\
  mode_of proxy_refresh select_completion = Caching.REFRESH /\
  cache_ops (trace_of (invoke proxy_refresh "select 1+2" select_completion)
                      (read_only_cache (MysqlOk row row_fields) []))
  = [EvRedisSet "sql.select 1+2[]" (Some row_text) 2629746] /\
  result_of select_completion
    (trace_of (invoke proxy_refresh "select 1+2" select_completion)
              (read_only_cache (MysqlOk row row_fields) []))
  = Some (Success row row_fields).
Proof.
  do 2 (split; [reflexivity|]).
  exact (refresh_mode_success proxy_refresh "select 1+2" select_completion
           (read_only_cache (MysqlOk row row_fields) [])
           row row_fields _ eq_refl eq_refl eq_refl).
Defined.

(** X11, at a concrete input: on healthy stores. *)
Lemma cache_mode_write_through_witness :
  has_handler select_promise = true /\
  mode_of proxy_full select_promise = Caching.CACHE /\
  truthy row && truthy row_fields = true /\
  cache_ops (trace_of (invoke proxy_full "select 1+2" select_promise)
                      (healthy (MysqlOk row row_fields) []))
  = [EvRedisSet "sql.select 1+2[]" (Some row_text) 2629746] /\
  result_of select_promise
    (trace_of (invoke proxy_full "select 1+2" select_promise)
              (healthy (MysqlOk row row_fields) []))
  = Some (Success row row_fields) /\
  fst (snd (run (invoke proxy_full "select 1+2" select_promise)
                (healthy (MysqlOk row row_fields) [])))
  = healthy (MysqlOk row row_fields) [("sql.select 1+2[]", row_text)].
Proof.
  do 3 (split; [reflexivity|]).
  exact (cache_mode_write_through proxy_full "select 1+2" select_promise
           (healthy (MysqlOk row row_fields) [])
           row row_fields _ _ eq_refl eq_refl eq_refl eq_refl eq_refl).
Defined.

(** X12, at a concrete input: with both stores down. *)
Lemma cache_mode_fallback_read_failure_witness :
  has_handler select_completion = true /\
  mode_of proxy_full select_completion = Caching.CACHE /\
  cache_ops (trace_of (invoke proxy_full "select 1+2" select_completion)
                      (cache_down (MysqlErr (Err "primary down"))))
  = [EvRedisGet "sql.select 1+2[]"] /\
  result_of select_completion
    (trace_of (invoke proxy_full "select 1+2" select_completion)
              (cache_down (MysqlErr (Err "primary down"))))
  = Some (Failure (Err "cache read failed") (cacheHit "sql.select 1+2[]")).
Proof.
  do 2 (split; [reflexivity|]).
  exact (cache_mode_fallback_read_failure proxy_full "select 1+2" select_completion
           (cache_down (MysqlErr (Err "primary down")))
           (Err "primary down") _ (Err "cache read failed") _
           eq_refl eq_refl eq_refl eq_refl).
Defined.

(** X14, at a concrete input: [{caching: Caching.CACHE}] on a
    SKIP proxy. *)
Lemma cache_mode_cannot_be_asked_per_call_witness :
  has_handler ask_cache = true /\
  caching proxy_skip = Caching.SKIP /\
  prop_caching (options_of ask_cache) = Some Caching.CACHE /\
  mode_of proxy_skip ask_cache = Caching.SKIP /\
  cache_ops (trace_of (invoke proxy_skip "select 1+2" ask_cache)
                      (healthy (MysqlOk row row_fields) [])) = [] /\
  result_of ask_cache
    (trace_of (invoke proxy_skip "select 1+2" ask_cache)
              (healthy (MysqlOk row row_fields) []))
  = Some (Success row row_fields).
Proof.
  do 3 (split; [reflexivity|]).
  exact (cache_mode_cannot_be_asked_per_call proxy_skip "select 1+2" ask_cache
           (healthy (MysqlOk row row_fields) []) eq_refl eq_refl eq_refl).
Defined.

(** X16, at a concrete input: with a cache that holds an older
    entry and refuses writes. *)
Lemma promise_write_failure_falls_back_witness :
  mode_of proxy_full select_promise = Caching.CACHE /\
  truthy row && truthy row_fields = true /\
  cache_ops (trace_of (invoke proxy_full "select 1+2" select_promise)
                      (read_only_cache (MysqlOk row row_fields)
                                       [("sql.select 1+2[]", "[]")]))
  = [EvRedisSet "sql.select 1+2[]" (Some row_text) 2629746;
     EvRedisGet "sql.select 1+2[]"] /\
  result_of select_promise
    (trace_of (invoke proxy_full "select 1+2" select_promise)
              (read_only_cache (MysqlOk row row_fields)
                               [("sql.select 1+2[]", "[]")]))
  = Some (Success (JArr []) (cacheHit "sql.select 1+2[]")).
Proof.
  do 2 (split; [reflexivity|]).
  exact (promise_write_failure_falls_back proxy_full "select 1+2" (AArray []) AUndefined
           (read_only_cache (MysqlOk row row_fields) [("sql.select 1+2[]", "[]")])
           row row_fields _ (Err "cache write failed") _
           eq_refl eq_refl eq_refl eq_refl).
Defined.

(** X13, at a concrete input: with the primary store down. *)
Lemma cache_mode_fallback_only_reads_witness :
  has_handler select_promise = true /\
  mode_of proxy_full select_promise = Caching.CACHE /\
  cache_ops (trace_of (invoke proxy_full "select 1+2" select_promise)
                      (healthy (MysqlErr (Err "primary down"))
                               [("sql.select 1+2[]", row_text)]))
  = [EvRedisGet "sql.select 1+2[]"].
Proof.
  do 2 (split; [reflexivity|]).
  exact (cache_mode_fallback_only_reads proxy_full "select 1+2" select_promise
           (healthy (MysqlErr (Err "primary down")) [("sql.select 1+2[]", row_text)])
           (Err "primary down") _ eq_refl eq_refl eq_refl).
Defined.

(** X19, at a concrete input: the same query with the expiry 10
    and with the expiry 20. *)
Lemma options_in_params_place_change_key_witness :
  resolved_hashType proxy_full (AObject [OExpire 10]) = HashTypes.full /\
  resolved_hashType proxy_full (AObject [OExpire 20]) = HashTypes.full /\
  get_hash [OExpire 10] = None /\ get_hash [OExpire 20] = None /\
  options_faithful [OExpire 10] = true /\ options_faithful [OExpire 20] = true /\
  [OExpire 10] <> [OExpire 20] /\
  key_of proxy_full "select 1+2" (PromiseStyle (AObject [OExpire 10]) AUndefined)
  <> key_of proxy_full "select 1+2" (PromiseStyle (AObject [OExpire 20]) AUndefined).
Proof.
  do 6 (split; [reflexivity|]).
  assert (Hne : [OExpire 10] <> [OExpire 20]) by discriminate.
  split; [exact Hne|].
  exact (options_in_params_place_change_key proxy_full "select 1+2" "select 1+2"
           [OExpire 10] [OExpire 20] eq_refl eq_refl eq_refl eq_refl eq_refl eq_refl Hne).
Defined.

(** X20, at a concrete input: [query("select 1+2", [])] in completion
    style. *)
Lemma write_through_then_fallback_witness :
  has_handler select_completion = true /\
  mode_of proxy_full select_completion = Caching.CACHE /\
  truthy row && truthy row_fields = true /\
  JSON_stringify row = Some row_text /\
  JSON_parse row_text = Some row /\
  result_of select_completion
    (trace_of (invoke proxy_full "select 1+2" select_completion)
              (healthy (MysqlErr (Err "primary down"))
                       [("sql.select 1+2[]", row_text)]))
  = Some (Success row (cacheHit "sql.select 1+2[]")).
Proof.
  do 5 (split; [reflexivity|]).
  exact (proj2 (proj2 (write_through_then_fallback proxy_full "select 1+2"
           select_completion row row_fields row_text (Err "primary down") []
           eq_refl eq_refl eq_refl eq_refl eq_refl))).
Defined.

(** X17, at a concrete input: a statement without field
    metadata while the cache is down. *)
Lemma promise_falsy_primary_settles_by_read_witness :
  mode_of proxy_full bare_promise = Caching.CACHE /\
  truthy update_result && truthy JUndefined = false /\
  result_of bare_promise
    (trace_of (invoke proxy_full "update t set a=1" bare_promise)
              (cache_down (MysqlOk update_result JUndefined)))
  = Some (Failure (Err "cache read failed") JUndefined).
Proof.
  do 2 (split; [reflexivity|]).
  exact (promise_falsy_primary_settles_by_read proxy_full "update t set a=1"
           AUndefined AUndefined (cache_down (MysqlOk update_result JUndefined))
           update_result JUndefined _ eq_refl eq_refl eq_refl).
Defined.

(** X21, at a concrete input: with a cache that is down. *)
Lemma completion_style_primary_success_witness :
  has_handler select_completion = true /\
  result_of select_completion
    (trace_of (invoke proxy_full "select 1+2" select_completion)
              (cache_down (MysqlOk row row_fields)))
  = Some (Success row row_fields) /\
  cache_ops (trace_of (invoke proxy_full "select 1+2" select_completion)
                      (cache_down (MysqlOk row row_fields)))
  = [EvRedisSet "sql.select 1+2[]" (Some row_text) 2629746].
Proof.
  split; [reflexivity|].
  exact (proj2 (completion_style_primary_success proxy_full "select 1+2"
           (AArray []) AFunction AUndefined
           (cache_down (MysqlOk row row_fields)) row row_fields _
           eq_refl eq_refl)).
Defined.
